(** * brave_shields::AdBlockEngine over the adblock engine

    A shallow embedding of [AdBlockEngine]
    (brave/components/brave_shields/browser/ad_block_engine.cc) and of the
    filter engine it drives.

    The wrapper ([ResourceTypeToString], [ShouldStartRequest],
    [GetCspDirectives], [EnableTag], [Load], [UpdateAdBlockClient], ...) is
    translated from the C++ source, one definition per member function,
    with the object's fields threaded explicitly as a record.

    The code of [adblock::Engine] lives in another component
    (components/adblock_rust_ffi).  Its data model and operations are
    written in [Module adblock] from the design document; every such
    definition says so in its doc comment.  What the design fixes neither
    an algorithm nor a format for (regular-expression matching, the filter
    list parser, the catalog lookup, the JSON text of the cosmetic
    queries) is a field of the class [Backend]; the two Chromium functions
    the wrapper calls (the registrable-domain lookup and the JSON reader)
    are the fields of the class [Chromium].  [GetDebugInfo] and
    [DiscardRegex], which only concern the regex bookkeeping, are not
    embedded. *)

From Stdlib Require Import ZArith NArith Bool List String Ascii Lia.
From Stdlib.Strings Require Import Byte.
From Stdlib Require DecimalString.
From stdpp Require Import base gmap sets list strings.
Import ListNotations.

Local Open Scope string_scope.
Local Open Scope list_scope.

(* ===================================================================== *)
(** ** Resource types (blink::mojom::ResourceType)                        *)
(* ===================================================================== *)

(** The enumerators the source names in [ResourceTypeToString]; one more
    constructor stands for every other value of the enum, all of which
    reach the [default:] label. *)
Inductive ResourceType : Type :=
| kMainFrame
| kSubFrame
| kStylesheet
| kScript
| kFavicon
| kImage
| kFontResource
| kSubResource
| kObject
| kMedia
| kXhr
| kPing
| kWorker
| kSharedWorker
| kPrefetch
| kServiceWorker
| kCspReport
| kPluginResource
| kUnlisted (raw : Z).

Definition ResourceTypeToString (resource_type : ResourceType) : string :=
  match resource_type with
  | kMainFrame => "main_frame"
  | kSubFrame => "sub_frame"
  | kStylesheet => "stylesheet"
  | kScript => "script"
  | kFavicon | kImage => "image"
  | kFontResource => "font"
  | kSubResource => "other"
  | kObject => "object"
  | kMedia => "media"
  | kXhr => "xhr"
  | kPing => "ping"
  | kWorker | kSharedWorker | kPrefetch | kServiceWorker
  | kCspReport | kPluginResource | kUnlisted _ => ""
  end.

(** The filter-option names the engine understands, in the order the
    design document lists them. *)
Definition resource_type_vocabulary : list string :=
  ["main_frame"; "sub_frame"; "stylesheet"; "script"; "image"; "font";
   "other"; "object"; "media"; "xhr"; "ping"].

(* ===================================================================== *)
(** ** URLs, origins, JSON values                                         *)
(* ===================================================================== *)

(** [GURL]: the two accessors the wrapper uses. *)
Record GURL : Type := mkGURL { GURL_spec : string; GURL_host : string }.

Record Origin : Type :=
  mkOrigin { Origin_scheme : string; Origin_host : string; Origin_port : Z }.

Definition CreateFromNormalizedTuple (scheme host : string) (port : Z) : Origin :=
  mkOrigin scheme host port.

Inductive PrivateRegistryFilter : Type :=
| EXCLUDE_PRIVATE_REGISTRIES
| INCLUDE_PRIVATE_REGISTRIES.

(** [base::Value]. A double is carried as its bit pattern. *)
#[local] Unset Elimination Schemes.
Inductive Value : Type :=
| VNone
| VBool (b : bool)
| VInt (i : Z)
| VDouble (bits : N)
| VString (s : string)
| VBinary (b : list byte)
| VDict (d : list (string * Value))
| VList (l : list Value).
#[local] Set Elimination Schemes.

Definition Dict : Type := list (string * Value).
Definition ValueList : Type := list Value.

Definition is_dict (v : Value) : bool :=
  match v with VDict _ => true | _ => false end.

Definition is_list (v : Value) : bool :=
  match v with VList _ => true | _ => false end.

(** A call either returns or stops at a failed [CHECK]. *)
Inductive Checked (A : Type) : Type :=
| Returned (a : A)
| CheckFailed.
Arguments Returned {A} a.
Arguments CheckFailed {A}.

(** [Value::GetDict] and [Value::GetList] check the type of the value. *)
Definition GetDict (v : Value) : Checked Dict :=
  match v with VDict d => Returned d | _ => CheckFailed end.

Definition GetList (v : Value) : Checked ValueList :=
  match v with VList l => Returned l | _ => CheckFailed end.

Definition DATFileDataBuffer : Type := list byte.

(* ===================================================================== *)
(** ** String helpers                                                     *)
(* ===================================================================== *)

Fixpoint contains (needle hay : string) : bool :=
  String.prefix needle hay ||
  match hay with
  | EmptyString => false
  | String _ rest => contains needle rest
  end.

(** [std::string::c_str] read by a callee that takes a C string: the
    characters before the first NUL. *)
Fixpoint c_str (s : string) : string :=
  match s with
  | EmptyString => EmptyString
  | String c rest =>
      if Ascii.eqb c Ascii.zero then EmptyString else String c (c_str rest)
  end.

Definition ends_with (suffix s : string) : bool :=
  let n := String.length suffix in
  let m := String.length s in
  (n <=? m)%nat && String.eqb (String.substring (m - n) n s) suffix.

(** [host] is [domain] or one of its subdomains. *)
Definition host_in_domain (host domain : string) : bool :=
  String.eqb host domain || ends_with (String.append "." domain) host.

Fixpoint index_of (s : string) (l : list string) : option nat :=
  match l with
  | [] => None
  | x :: rest =>
      if String.eqb s x then Some 0%nat
      else match index_of s rest with
           | Some i => Some (S i)
           | None => None
           end
  end.

(* ===================================================================== *)
(** ** The filter engine (adblock::Engine)                                *)
(* ===================================================================== *)

Module adblock.

(** Modelled from the spec: the pattern of a Rule of the engine (data
    model: "literal substring, anchored forms, or regex"); the anchored
    forms are the start anchor, the end anchor and the host anchor of the
    filter-list syntax. A regex is kept as its source text. *)
Inductive Pattern : Type :=
| Substring (s : string)
| LeftAnchored (s : string)
| RightAnchored (s : string)
| HostAnchored (h : string)
| Regex (re : string).

(** Modelled from the spec: the third-party-only/first-party-only flag of
    a Rule of the engine. *)
Inductive PartyConstraint : Type :=
| AnyParty
| ThirdPartyOnly
| FirstPartyOnly.

(** Modelled from the spec: the Rule record of the engine's data model.
    [rule_types] is the resource-type bitmask, bit [i] standing for entry
    [i] of [resource_type_vocabulary]; the mask 0 is a rule without type
    option. [rule_rewrite] names the resource of a redirect rule and
    [rule_csp] is the directive of a directive rule. *)
Record Rule : Type := mkRule {
  rule_id : N;
  rule_pattern : Pattern;
  rule_types : N;
  rule_domains_include : list string;
  rule_domains_exclude : list string;
  rule_party : PartyConstraint;
  rule_tag : option string;
  rule_important : bool;
  rule_exception : bool;
  rule_rewrite : option string;
  rule_csp : option string
}.

(** Modelled from the spec: the regex discard policy of the engine's
    control interface, [setupDiscardPolicy(idleSeconds, maxCompiled)]. *)
Record RegexManagerDiscardPolicy : Type := mkPolicy {
  idleSeconds : N;
  maxCompiled : N
}.

(** Modelled from the spec: an engine instance. The index is the rule set
    (the buckets of the design are a way to find candidates faster and
    select the same rules); the active tags, the resource catalog (its
    JSON text) and the discard policy are the state the control interface
    changes. The per-regex usage counters, which no match result depends
    on, are left out. *)
Record Engine : Type := mkEngine {
  rules : list Rule;
  tags_enabled : gset string;
  resources : string;
  discard_policy : option RegexManagerDiscardPolicy
}.

(** What the engine relies on and the design fixes no algorithm or format
    for. *)
Class Backend : Type := {
  (** the regex sub-engine: does the pattern text match the URL *)
  regex_is_match : string -> string -> bool;
  (** the Rule Parser, from the bytes of a filter list *)
  parse_filter_list : list byte -> list Rule;
  (** payload of a named resource in the JSON text of a catalog *)
  catalog_lookup : string -> string -> option string;
  (** JSON text answered to the two cosmetic queries *)
  urlCosmeticResources_json : Engine -> string -> string;
  hiddenClassIdSelectors_json :
    Engine -> list string -> list string -> list string -> string;
  (** the value of a default-constructed policy *)
  default_discard_policy : RegexManagerDiscardPolicy
}.

(** The request descriptor of a query: the five arguments of [matches]. *)
Record Request : Type := mkRequest {
  request_url : string;
  request_host : string;
  source_host : string;
  is_third_party : bool;
  resource_type_tag : string
}.

(** Modelled from the spec: the result of the engine's [matches],
    (matchedBlock, matchedException, matchedImportant,
    optionalRewriteURL). *)
Record MatchResult : Type := mkMatchResult {
  matchedBlock : bool;
  matchedException : bool;
  matchedImportant : bool;
  optionalRewriteURL : option string
}.

Section Matcher.
Context `{Backend}.

(** Modelled from the spec: the engine's default constructor, an engine
    without rules, tags or resources. *)
Definition Engine_new : Engine := mkEngine [] ∅ "" None.

(** Modelled from the spec: the engine's constructor from filter-list
    text (load path (a): text, Parser, Index). *)
Definition Engine_from_list (filters : list byte) : Engine :=
  mkEngine (parse_filter_list filters) ∅ "" None.

(** Modelled from the spec: pattern evaluation of the matcher against
    requestURL/requestHost. *)
Definition pattern_matches (p : Pattern) (r : Request) : bool :=
  match p with
  | Substring s => contains s (request_url r)
  | LeftAnchored s => String.prefix s (request_url r)
  | RightAnchored s => ends_with s (request_url r)
  | HostAnchored h => host_in_domain (request_host r) h
  | Regex re => regex_is_match re (request_url r)
  end.

(** Modelled from the spec: the bit of a resource-type tag in the
    bitmask; a tag outside the vocabulary, the empty one first of all,
    has no bit (the request is untyped). *)
Definition type_bit (tag : string) : N :=
  match index_of tag resource_type_vocabulary with
  | Some i => N.shiftl 1 (N.of_nat i)
  | None => 0%N
  end.

Definition type_restricted (r : Rule) : bool := negb (rule_types r =? 0)%N.

(** Modelled from the spec: the resource-type bitmask of the rule
    against resourceTypeTag. *)
Definition type_matches (r : Rule) (q : Request) : bool :=
  if (rule_types r =? 0)%N then true
  else negb (N.land (rule_types r) (type_bit (resource_type_tag q)) =? 0)%N.

(** Modelled from the spec: the third-party/first-party constraint
    against isThirdParty. *)
Definition party_matches (r : Rule) (q : Request) : bool :=
  match rule_party r with
  | AnyParty => true
  | ThirdPartyOnly => is_third_party q
  | FirstPartyOnly => negb (is_third_party q)
  end.

(** Modelled from the spec: domain include/exclude against sourceHost. *)
Definition domain_matches (r : Rule) (q : Request) : bool :=
  match rule_domains_include r with
  | [] => true
  | ds => existsb (host_in_domain (source_host q)) ds
  end
  && negb (existsb (host_in_domain (source_host q)) (rule_domains_exclude r)).

(** Modelled from the spec: a rule's tag requirement, if any, is
    currently enabled. *)
Definition tag_satisfied (tags : gset string) (r : Rule) : bool :=
  match rule_tag r with
  | None => true
  | Some t => bool_decide (t ∈ tags)
  end.

(** The predicate of a rule but for its tag requirement: pattern, then
    resource type, then party, then domains. *)
Definition untagged_predicate (r : Rule) (q : Request) : bool :=
  pattern_matches (rule_pattern r) q
  && type_matches r q && party_matches r q && domain_matches r q.

(** Modelled from the spec: step 2 of the matcher, the full predicate of
    a rule on a request. *)
Definition rule_matches (tags : gset string) (r : Rule) (q : Request) : bool :=
  tag_satisfied tags r && untagged_predicate r q.

Definition is_block (r : Rule) : bool := negb (rule_exception r).
Definition is_important_block (r : Rule) : bool :=
  negb (rule_exception r) && rule_important r.

(** The rewrite target of the first rule of [l] that has one, resolved in
    the catalog by name. *)
Fixpoint first_rewrite (catalog : string) (l : list Rule) : option string :=
  match l with
  | [] => None
  | r :: rest =>
      match rule_rewrite r with
      | Some name => catalog_lookup catalog name
      | None => first_rewrite catalog rest
      end
  end.

(** Modelled from the spec: step 3 of the matcher, resolution among the
    matching rules. An exception suppresses a block unless an important
    block rule matched. *)
Definition resolve (catalog : string) (matching : list Rule) : MatchResult :=
  let important := existsb is_important_block matching in
  {| matchedBlock := existsb is_block matching;
     matchedException := negb important && existsb rule_exception matching;
     matchedImportant := important;
     optionalRewriteURL := first_rewrite catalog (List.filter is_block matching) |}.

(** The rules of the index whose full predicate the request satisfies,
    in index order. *)
Definition matching_rules (e : Engine) (q : Request) : list Rule :=
  List.filter (fun r => rule_matches (tags_enabled e) r q) (rules e).

(** Modelled from the spec: [matches] of the engine's query interface. *)
Definition matches (e : Engine) (url host tab_host : string)
    (third_party : bool) (resource_type : string) : MatchResult :=
  let q := mkRequest url host tab_host third_party resource_type in
  resolve (resources e) (matching_rules e q).

(** Whether the caller of [matches] is to block the request. *)
Definition blocked (m : MatchResult) : bool :=
  matchedBlock m && negb (matchedException m).

(** Directives of the rules of [l], in order, separated by commas. *)
Fixpoint join_directives (l : list string) : string :=
  match l with
  | [] => ""
  | [d] => d
  | d :: rest => String.append d (String.append "," (join_directives rest))
  end.

(** Modelled from the spec: [getCspDirectives] of the engine, the
    directives of all matching directive rules that no matching exception
    rule names. *)
Definition getCspDirectives (e : Engine) (url host tab_host : string)
    (third_party : bool) (resource_type : string) : string :=
  let q := mkRequest url host tab_host third_party resource_type in
  let matching := matching_rules e q in
  let excepted :=
    omap rule_csp (List.filter rule_exception matching) in
  let directives :=
    omap rule_csp (List.filter is_block matching) in
  join_directives
    (List.filter (fun d => negb (existsb (String.eqb d) excepted)) directives).

(** Modelled from the spec: the engine's control interface. *)
Definition addTag (e : Engine) (t : string) : Engine :=
  mkEngine (rules e) ({[t]} ∪ tags_enabled e) (resources e) (discard_policy e).

Definition removeTag (e : Engine) (t : string) : Engine :=
  mkEngine (rules e) (tags_enabled e ∖ {[t]}) (resources e) (discard_policy e).

Definition useResources (e : Engine) (catalog : string) : Engine :=
  mkEngine (rules e) (tags_enabled e) catalog (discard_policy e).

Definition setupDiscardPolicy (e : Engine) (p : RegexManagerDiscardPolicy)
    : Engine :=
  mkEngine (rules e) (tags_enabled e) (resources e) (Some p).

(** The two cosmetic queries answer JSON text. *)
Definition urlCosmeticResources (e : Engine) (url : string) : string :=
  urlCosmeticResources_json e url.

Definition hiddenClassIdSelectors (e : Engine)
    (classes ids exceptions : list string) : string :=
  hiddenClassIdSelectors_json e classes ids exceptions.

End Matcher.
(* --------------------------------------------------------------------- *)
(** *** Snapshot codec                                                    *)
(* --------------------------------------------------------------------- *)

(** A decoder reads a value off the front of the buffer or fails. *)
Definition Decoder (A : Type) : Type := list byte -> option (A * list byte).

Definition dret {A : Type} (a : A) : Decoder A := fun s => Some (a, s).

Definition dfail {A : Type} : Decoder A := fun _ => None.

Definition dbind {A B : Type} (d : Decoder A) (k : A -> Decoder B) : Decoder B :=
  fun s => match d s with
           | Some (a, rest) => k a rest
           | None => None
           end.

Declare Scope decoder_scope.
Delimit Scope decoder_scope with dec.
Notation "x <~ d ;; k" := (dbind d (fun x => k))
  (at level 100, d at next level, right associativity) : decoder_scope.

Definition byte_of_N (n : N) : byte :=
  match Byte.of_N n with
  | Some b => b
  | None => x00
  end.

(** Numbers: groups of seven bits, low group first, the high bit of a
    byte set when another group follows. *)
Fixpoint encode_N_groups (groups : nat) (n : N) : list byte :=
  match groups with
  | O => []
  | S g =>
      if (n <? 128)%N then [byte_of_N n]
      else byte_of_N (128 + n mod 128) :: encode_N_groups g (n / 128)
  end.

Definition encode_N (n : N) : list byte :=
  encode_N_groups (S (N.to_nat (N.size n))) n.

Fixpoint decode_N (s : list byte) : option (N * list byte) :=
  match s with
  | [] => None
  | b :: rest =>
      let v := Byte.to_N b in
      if (v <? 128)%N then Some (v, rest)
      else match decode_N rest with
           | Some (high, rest') => Some (v - 128 + 128 * high, rest')%N
           | None => None
           end
  end.

Definition encode_bool (b : bool) : list byte := [if b then x01 else x00].

Definition decode_bool : Decoder bool :=
  fun s => match s with
           | x00 :: rest => Some (false, rest)
           | x01 :: rest => Some (true, rest)
           | _ => None
           end.

(** Strings: the length, then the bytes. *)
Definition encode_string (s : string) : list byte :=
  encode_N (N.of_nat (String.length s)) ++ list_byte_of_string s.

Definition decode_string : Decoder string :=
  (n <~ decode_N ;;
   fun s =>
     if (n <=? N.of_nat (List.length s))%N
     then Some (string_of_list_byte (firstn (N.to_nat n) s),
                skipn (N.to_nat n) s)
     else None)%dec.

Definition encode_option {A : Type} (enc : A -> list byte) (o : option A)
    : list byte :=
  match o with
  | None => [x00]
  | Some a => x01 :: enc a
  end.

Definition decode_option {A : Type} (dec : Decoder A) : Decoder (option A) :=
  fun s => match s with
           | x00 :: rest => Some (None, rest)
           | x01 :: rest =>
               match dec rest with
               | Some (a, rest') => Some (Some a, rest')
               | None => None
               end
           | _ => None
           end.

(** Lists: the number of items, then the items. *)
Definition encode_list {A : Type} (enc : A -> list byte) (l : list A)
    : list byte :=
  encode_N (N.of_nat (List.length l)) ++ concat (map enc l).

Fixpoint decode_items {A : Type} (dec : Decoder A) (count : nat)
    : Decoder (list A) :=
  match count with
  | O => dret []
  | S c => (a <~ dec ;; l <~ decode_items dec c ;; dret (a :: l))%dec
  end.

Definition decode_list {A : Type} (dec : Decoder A) : Decoder (list A) :=
  (n <~ decode_N ;;
   fun s =>
     if (n <=? N.of_nat (List.length s))%N
     then decode_items dec (N.to_nat n) s
     else None)%dec.

Definition encode_pattern (p : Pattern) : list byte :=
  match p with
  | Substring s => x00 :: encode_string s
  | LeftAnchored s => x01 :: encode_string s
  | RightAnchored s => x02 :: encode_string s
  | HostAnchored h => x03 :: encode_string h
  | Regex re => x04 :: encode_string re
  end.

Definition decode_pattern : Decoder Pattern :=
  fun s => match s with
           | x00 :: rest => (t <~ decode_string ;; dret (Substring t))%dec rest
           | x01 :: rest => (t <~ decode_string ;; dret (LeftAnchored t))%dec rest
           | x02 :: rest => (t <~ decode_string ;; dret (RightAnchored t))%dec rest
           | x03 :: rest => (t <~ decode_string ;; dret (HostAnchored t))%dec rest
           | x04 :: rest => (t <~ decode_string ;; dret (Regex t))%dec rest
           | _ => None
           end.

Definition encode_party (p : PartyConstraint) : list byte :=
  match p with
  | AnyParty => [x00]
  | ThirdPartyOnly => [x01]
  | FirstPartyOnly => [x02]
  end.

Definition decode_party : Decoder PartyConstraint :=
  fun s => match s with
           | x00 :: rest => Some (AnyParty, rest)
           | x01 :: rest => Some (ThirdPartyOnly, rest)
           | x02 :: rest => Some (FirstPartyOnly, rest)
           | _ => None
           end.

Definition encode_rule (r : Rule) : list byte :=
  encode_N (rule_id r)
  ++ encode_pattern (rule_pattern r)
  ++ encode_N (rule_types r)
  ++ encode_list encode_string (rule_domains_include r)
  ++ encode_list encode_string (rule_domains_exclude r)
  ++ encode_party (rule_party r)
  ++ encode_option encode_string (rule_tag r)
  ++ encode_bool (rule_important r)
  ++ encode_bool (rule_exception r)
  ++ encode_option encode_string (rule_rewrite r)
  ++ encode_option encode_string (rule_csp r).

Definition decode_rule : Decoder Rule :=
  (id <~ decode_N ;;
   pat <~ decode_pattern ;;
   types <~ decode_N ;;
   incl <~ decode_list decode_string ;;
   excl <~ decode_list decode_string ;;
   party <~ decode_party ;;
   tag <~ decode_option decode_string ;;
   imp <~ decode_bool ;;
   exc <~ decode_bool ;;
   rew <~ decode_option decode_string ;;
   csp <~ decode_option decode_string ;;
   dret (mkRule id pat types incl excl party tag imp exc rew csp))%dec.

(** The version of the layout, the first byte of every snapshot. *)
Definition snapshot_version : byte := x01.

(** Modelled from the spec: [serialize] of the Snapshot Codec, for which
    the design requires an opaque, ordering-stable byte buffer and fixes
    no layout. The layout here is the version byte followed by the rules
    in index order. *)
Definition serialize_index (idx : list Rule) : list byte :=
  snapshot_version :: encode_list encode_rule idx.

(** Modelled from the spec: [deserialize(bytes)] of the Snapshot Codec,
    an index or a failure; a buffer of another version, a truncated one
    and one with bytes left over all fail. *)
Definition deserialize_index (data : list byte) : option (list Rule) :=
  match data with
  | [] => None
  | v :: rest =>
      if Byte.eqb v snapshot_version then
        match decode_list decode_rule rest with
        | Some (idx, []) => Some idx
        | _ => None
        end
      else None
  end.

(** Modelled from the spec: [serialize] of an engine writes its index;
    tags and resources stay outside the snapshot. *)
Definition serialize (e : Engine) : list byte := serialize_index (rules e).

(** Modelled from the spec: [deserialize] on an engine instance. It
    reports success and replaces the index as a whole; on failure the
    instance is left as it was. *)
Definition deserialize (e : Engine) (data : list byte) : bool * Engine :=
  match deserialize_index data with
  | Some idx =>
      (true, mkEngine idx (tags_enabled e) (resources e) (discard_policy e))
  | None => (false, e)
  end.

End adblock.

(* ===================================================================== *)
(** ** The wrapper (brave_shields::AdBlockEngine)                         *)
(* ===================================================================== *)

Import adblock.

(** Chromium functions the wrapper calls: the registrable-domain lookup
    of net/base/registry_controlled_domains ("" for a host that has
    none) and [base::JSONReader::Read]. *)
Class Chromium : Type := {
  GetDomainAndRegistry : string -> PrivateRegistryFilter -> string;
  JSONReader_Read : string -> option Value
}.

(** The test observer counts the [OnEngineUpdated] calls it received. *)
Record TestObserver : Type := mkTestObserver { engine_updates : nat }.

Definition OnEngineUpdated (o : TestObserver) : TestObserver :=
  mkTestObserver (S (engine_updates o)).

(** The data members of [AdBlockEngine]. [tags_] is a
    [std::set<std::string>]. *)
Record AdBlockEngine : Type := mkAdBlockEngine {
  ad_block_client_ : Engine;
  tags_ : gset string;
  regex_discard_policy_ : RegexManagerDiscardPolicy;
  test_observer_ : option TestObserver
}.

Definition with_client (w : AdBlockEngine) (c : Engine) : AdBlockEngine :=
  mkAdBlockEngine c (tags_ w) (regex_discard_policy_ w) (test_observer_ w).

Definition with_tags (w : AdBlockEngine) (t : gset string) : AdBlockEngine :=
  mkAdBlockEngine (ad_block_client_ w) t (regex_discard_policy_ w)
    (test_observer_ w).

Section Wrapper.
Context `{Backend} `{Chromium}.

(** Modelled from the spec: [SameDomainOrHost] of
    net/base/registry_controlled_domains, by the glossary entry of a
    third-party request: the two hosts have the same registrable
    domain. *)
Definition SameDomainOrHost (url : GURL) (origin : Origin)
    (filter : PrivateRegistryFilter) : bool :=
  String.eqb (GetDomainAndRegistry (GURL_host url) filter)
             (GetDomainAndRegistry (Origin_host origin) filter).

(** [AdBlockEngine::AdBlockEngine()]. *)
Definition AdBlockEngine_new : AdBlockEngine :=
  mkAdBlockEngine Engine_new ∅ default_discard_policy None.

(** The out-parameters [did_match_rule], [did_match_exception] and
    [did_match_important] are the three flags of the result, and the two
    string out-parameters carry its rewrite. [aggressive_blocking] is
    not read. The tab origin is built from [tab_host.c_str()], the engine
    is given [tab_host] itself. *)
Definition ShouldStartRequest (w : AdBlockEngine) (url : GURL)
    (resource_type : ResourceType) (tab_host : string)
    (aggressive_blocking : bool) : MatchResult :=
  let is_third_party :=
    negb (SameDomainOrHost url
            (CreateFromNormalizedTuple "https" (c_str tab_host) 80)
            INCLUDE_PRIVATE_REGISTRIES) in
  matches (ad_block_client_ w) (GURL_spec url) (GURL_host url) tab_host
    is_third_party (ResourceTypeToString resource_type).

Definition GetCspDirectives (w : AdBlockEngine) (url : GURL)
    (resource_type : ResourceType) (tab_host : string) : option string :=
  let is_third_party :=
    negb (SameDomainOrHost url
            (CreateFromNormalizedTuple "https" (c_str tab_host) 80)
            INCLUDE_PRIVATE_REGISTRIES) in
  let result :=
    getCspDirectives (ad_block_client_ w) (GURL_spec url) (GURL_host url)
      tab_host is_third_party (ResourceTypeToString resource_type) in
  if String.eqb result "" then None else Some result.

Definition EnableTag (w : AdBlockEngine) (tag : string) (enabled : bool)
    : AdBlockEngine :=
  if enabled then
    if bool_decide (tag ∈ tags_ w) then w
    else with_tags (with_client w (addTag (ad_block_client_ w) tag))
                   ({[tag]} ∪ tags_ w)
  else with_tags (with_client w (removeTag (ad_block_client_ w) tag))
                 (tags_ w ∖ {[tag]}).

Definition UseResources (w : AdBlockEngine) (resources : string)
    : AdBlockEngine :=
  with_client w (useResources (ad_block_client_ w) resources).

Definition TagExists (w : AdBlockEngine) (tag : string) : bool :=
  bool_decide (tag ∈ tags_ w).

Definition SetupDiscardPolicy (w : AdBlockEngine)
    (policy : RegexManagerDiscardPolicy) : AdBlockEngine :=
  mkAdBlockEngine (setupDiscardPolicy (ad_block_client_ w) policy)
    (tags_ w) policy (test_observer_ w).

Definition UrlCosmeticResources (w : AdBlockEngine) (url : string)
    : Checked Dict :=
  match JSONReader_Read (urlCosmeticResources (ad_block_client_ w) url) with
  | None => Returned []
  | Some result =>
      if is_dict result then GetDict result else CheckFailed
  end.

Definition HiddenClassIdSelectors (w : AdBlockEngine)
    (classes ids exceptions : list string) : Checked ValueList :=
  match JSONReader_Read
          (hiddenClassIdSelectors (ad_block_client_ w) classes ids exceptions)
  with
  | None => Returned []
  | Some result =>
      if is_list result then GetList result else CheckFailed
  end.

(** [std::for_each] over [tags_]. *)
Definition AddKnownTagsToAdBlockInstance (w : AdBlockEngine) : AdBlockEngine :=
  with_client w
    (set_fold (fun tag c => addTag c tag) (ad_block_client_ w) (tags_ w)).

Definition UpdateAdBlockClient (w : AdBlockEngine) (ad_block_client : Engine)
    (resources_json : string) : AdBlockEngine :=
  let w1 := with_client w ad_block_client in
  let w2 :=
    with_client w1
      (setupDiscardPolicy (ad_block_client_ w1) (regex_discard_policy_ w1)) in
  let w3 := UseResources w2 resources_json in
  let w4 := AddKnownTagsToAdBlockInstance w3 in
  match test_observer_ w4 with
  | Some o =>
      mkAdBlockEngine (ad_block_client_ w4) (tags_ w4)
        (regex_discard_policy_ w4) (Some (OnEngineUpdated o))
  | None => w4
  end.

Definition OnListSourceLoaded (w : AdBlockEngine) (filters : DATFileDataBuffer)
    (resources_json : string) : AdBlockEngine :=
  let engine := Engine_from_list filters in
  UpdateAdBlockClient w engine resources_json.

(** The value [deserialize] returns is not looked at. *)
Definition OnDATLoaded (w : AdBlockEngine) (dat_buf : DATFileDataBuffer)
    (resources_json : string) : AdBlockEngine :=
  match dat_buf with
  | [] => w
  | _ :: _ =>
      let client := snd (deserialize Engine_new dat_buf) in
      UpdateAdBlockClient w client resources_json
  end.

Definition Load (w : AdBlockEngine) (deserialize : bool)
    (dat_buf : DATFileDataBuffer) (resources_json : string) : AdBlockEngine :=
  if deserialize then OnDATLoaded w dat_buf resources_json
  else OnListSourceLoaded w dat_buf resources_json.

Definition AddObserverForTest (w : AdBlockEngine) (observer : TestObserver)
    : AdBlockEngine :=
  mkAdBlockEngine (ad_block_client_ w) (tags_ w) (regex_discard_policy_ w)
    (Some observer).

Definition RemoveObserverForTest (w : AdBlockEngine) : AdBlockEngine :=
  mkAdBlockEngine (ad_block_client_ w) (tags_ w) (regex_discard_policy_ w)
    None.

(** The states a caller can bring a wrapper into through its public
    member functions. *)
Inductive reachable : AdBlockEngine -> Prop :=
| reach_new : reachable AdBlockEngine_new
| reach_EnableTag w tag enabled :
    reachable w -> reachable (EnableTag w tag enabled)
| reach_UseResources w resources :
    reachable w -> reachable (UseResources w resources)
| reach_SetupDiscardPolicy w policy :
    reachable w -> reachable (SetupDiscardPolicy w policy)
| reach_Load w deserialize dat_buf resources_json :
    reachable w -> reachable (Load w deserialize dat_buf resources_json)
| reach_AddObserverForTest w observer :
    reachable w -> reachable (AddObserverForTest w observer)
| reach_RemoveObserverForTest w :
    reachable w -> reachable (RemoveObserverForTest w).

(** The engine's active tags are the tags the wrapper recorded. *)
Definition tags_in_sync (w : AdBlockEngine) : Prop :=
  tags_enabled (ad_block_client_ w) = tags_ w.

(** [last_policy p w]: in the calls that led to [w], [p] is the policy of
    the last [SetupDiscardPolicy], or the default-constructed policy if
    there was no such call. *)
Inductive last_policy : RegexManagerDiscardPolicy -> AdBlockEngine -> Prop :=
| last_new : last_policy default_discard_policy AdBlockEngine_new
| last_SetupDiscardPolicy p0 p w :
    last_policy p0 w -> last_policy p (SetupDiscardPolicy w p)
| last_EnableTag p w tag enabled :
    last_policy p w -> last_policy p (EnableTag w tag enabled)
| last_UseResources p w resources :
    last_policy p w -> last_policy p (UseResources w resources)
| last_Load p w deserialize dat_buf resources_json :
    last_policy p w ->
    last_policy p (Load w deserialize dat_buf resources_json)
| last_AddObserverForTest p w observer :
    last_policy p w -> last_policy p (AddObserverForTest w observer)
| last_RemoveObserverForTest p w :
    last_policy p w -> last_policy p (RemoveObserverForTest w).

End Wrapper.

(* --------------------------------------------------------------------- *)
(** *** Debug information ([AdBlockEngine::GetDebugInfo])                 *)
(* --------------------------------------------------------------------- *)

(** [base::Value::Dict::Set]: a dictionary is kept sorted by key and has
    one entry per key; setting a key that is present replaces its
    value. *)
Fixpoint Dict_Set (d : Dict) (key : string) (value : Value) : Dict :=
  match d with
  | [] => [(key, value)]
  | (k, v) :: rest =>
      match String.compare key k with
      | Eq => (key, value) :: rest
      | Lt => (key, value) :: d
      | Gt => (k, v) :: Dict_Set rest key value
      end
  end.

(** [base::Value::Dict::Find]. *)
Fixpoint Dict_Find (d : Dict) (key : string) : option Value :=
  match d with
  | [] => None
  | (k, v) :: rest => if String.eqb key k then Some v else Dict_Find rest key
  end.

(** [base::Value::List::Append]. *)
Definition List_Append (l : ValueList) (value : Value) : ValueList :=
  l ++ [value].

(** [static_cast<int>] of an unsigned counter: the value modulo 2^32,
    read as a 32-bit two's complement integer. *)
Definition static_cast_int (n : N) : Z :=
  let low := (Z.of_N n mod 2 ^ 32)%Z in
  if (low <? 2 ^ 31)%Z then low else (low - 2 ^ 32)%Z.

(** What the engine reports about one compiled regex and about all of
    them; the counters are unsigned. *)
Record RegexDebugEntry : Type := mkRegexDebugEntry {
  entry_id : N;
  regex : string;
  unused_sec : N;
  usage_count : N
}.

Record AdblockDebugInfo : Type := mkAdblockDebugInfo {
  regex_data : list RegexDebugEntry;
  compiled_regex_count : N
}.

Section DebugInfo.

(** The engine's [getAdblockDebugInfo] and [base::NumberToString]. *)
Variable getAdblockDebugInfo : Engine -> AdblockDebugInfo.
Variable NumberToString : N -> string.

(** The body of the loop over [regex_data]. *)
Definition regex_info_of (regex_entry : RegexDebugEntry) : Dict :=
  let regex_info : Dict := [] in
  let regex_info :=
    Dict_Set regex_info "id"
      (VString (NumberToString (entry_id regex_entry))) in
  let regex_info :=
    Dict_Set regex_info "regex" (VString (regex regex_entry)) in
  let regex_info :=
    Dict_Set regex_info "unused_sec"
      (VInt (static_cast_int (unused_sec regex_entry))) in
  Dict_Set regex_info "usage_count"
    (VInt (static_cast_int (usage_count regex_entry))).

Definition GetDebugInfo (w : AdBlockEngine) : Dict :=
  let debug_info_struct := getAdblockDebugInfo (ad_block_client_ w) in
  let regex_list :=
    fold_left
      (fun (regex_list : ValueList) (regex_entry : RegexDebugEntry) =>
         List_Append regex_list (VDict (regex_info_of regex_entry)))
      (regex_data debug_info_struct) [] in
  let result : Dict := [] in
  let result :=
    Dict_Set result "compiled_regex_count"
      (VInt (static_cast_int (compiled_regex_count debug_info_struct))) in
  Dict_Set result "regex_data" (VList regex_list).

End DebugInfo.

(* ===================================================================== *)
(** ** A concrete platform for examples                                   *)
(* ===================================================================== *)

(** The labels of a host name, split at the dots. *)
Fixpoint split_labels (s : string) : list string :=
  match s with
  | EmptyString => [""]
  | String c rest =>
      if Ascii.eqb c "." then "" :: split_labels rest
      else match split_labels rest with
           | l :: ls => String c l :: ls
           | [] => [String c ""]
           end
  end.

(** A registrable-domain lookup over a table in which every top-level
    label is a suffix: the last two labels of the host, none for a host
    of one label. *)
Definition two_label_domain (host : string) (_ : PrivateRegistryFilter)
    : string :=
  match rev (split_labels host) with
  | tld :: name :: _ => String.append name (String.append "." tld)
  | _ => ""
  end.

(** A reader that knows the empty object and the empty array only. *)
Definition tiny_json_reader (text : string) : option Value :=
  if String.eqb text "{}" then Some (VDict [])
  else if String.eqb text "[]" then Some (VList [])
  else None.

Definition sample_chromium : Chromium :=
  {| GetDomainAndRegistry := two_label_domain;
     JSONReader_Read := tiny_json_reader |}.

(** A backend whose regex sub-engine knows literal text only, whose
    parser reads no rule, whose catalog has a payload for every name
    that occurs in it, and whose cosmetic queries answer text cut short
    on a page without rules. *)
Definition sample_backend : Backend :=
  {| regex_is_match := contains;
     parse_filter_list := fun _ => [];
     catalog_lookup := fun catalog name =>
       if contains name catalog then Some (String.append "data:" name)
       else None;
     urlCosmeticResources_json := fun e _ =>
       match rules e with [] => "{" | _ => "{}" end;
     hiddenClassIdSelectors_json := fun e _ _ _ =>
       match rules e with [] => "[" | _ => "[]" end;
     default_discard_policy := mkPolicy 0 0 |}.

(** Rules and requests used in the examples below. *)
Definition plain_rule (id : N) (p : Pattern) : Rule :=
  mkRule id p 0 [] [] AnyParty None false false None None.

Definition ads_block : Rule := plain_rule 1 (HostAnchored "ads.example.com").

Definition ads_important_block : Rule :=
  mkRule 2 (HostAnchored "ads.example.com") 0 [] [] AnyParty None
    true false None None.

Definition ads_exception : Rule :=
  mkRule 3 (Substring "/a.js") 0 [] [] AnyParty None false true None None.

Definition ads_script_block : Rule :=
  mkRule 4 (HostAnchored "ads.example.com") 8 [] [] AnyParty None
    false false None None.

Definition regional_block : Rule :=
  mkRule 5 (HostAnchored "ads.example.com") 0 [] [] AnyParty (Some "regional")
    false false None None.

Definition ads_url : GURL :=
  mkGURL "https://ads.example.com/a.js" "ads.example.com".




(** A backend that answers each cosmetic query with the JSON text of the
    other: an array for the page, an object for the selectors. *)
Definition swapped_backend : Backend :=
  {| regex_is_match := contains;
     parse_filter_list := fun _ => [];
     catalog_lookup := fun _ _ => None;
     urlCosmeticResources_json := fun _ _ => "[]";
     hiddenClassIdSelectors_json := fun _ _ _ _ => "{}";
     default_discard_policy := mkPolicy 0 0 |}.

(** A debug report with one regex used three times, and numbers written
    in decimal. *)
Definition sample_debug_info (_ : Engine) : AdblockDebugInfo :=
  mkAdblockDebugInfo [mkRegexDebugEntry 7 "ad[0-9]+" 12 3] 1.

Definition decimal_string (n : N) : string :=
  DecimalString.NilZero.string_of_uint (N.to_uint n).

(* ===================================================================== *)
(** ** Resolution among the matching rules                                *)
(* ===================================================================== *)

Section MatcherFacts.
Context `{Backend}.

Lemma matches_resolve (e : Engine) (url host tab_host : string)
    (third_party : bool) (resource_type : string) :
  matches e url host tab_host third_party resource_type =
  resolve (resources e)
    (matching_rules e (mkRequest url host tab_host third_party resource_type)).
Proof. reflexivity. Qed.

Lemma in_matching_rules (e : Engine) (q : Request) (r : Rule) :
  In r (matching_rules e q) <->
  In r (rules e) /\ rule_matches (tags_enabled e) r q = true.
Proof. unfold matching_rules. apply List.filter_In. Qed.

Lemma matching_rules_nil (e : Engine) (q : Request) :
  (forall r, In r (rules e) -> rule_matches (tags_enabled e) r q = false) ->
  matching_rules e q = [].
Proof.
  unfold matching_rules. induction (rules e) as [|r l IH]; intros Hno.
  - reflexivity.
  - simpl. rewrite (Hno r (or_introl eq_refl)). apply IH.
    intros r' Hr'. apply Hno. now right.
Qed.

Lemma existsb_of_member {A : Type} (p : A -> bool) (l : list A) (a : A) :
  In a l -> p a = true -> existsb p l = true.
Proof. intros Hin Hp. apply List.existsb_exists. now exists a. Qed.


(** An important block among the matching rules decides the result. *)
Lemma resolve_important (catalog : string) (l : list Rule) (a : Rule) :
  In a l -> rule_exception a = false -> rule_important a = true ->
  matchedBlock (resolve catalog l) = true
  /\ matchedException (resolve catalog l) = false
  /\ matchedImportant (resolve catalog l) = true.
Proof.
  intros Hin Hexc Himp.
  assert (Hi : existsb is_important_block l = true).
  { apply (existsb_of_member _ _ a Hin). unfold is_important_block.
    now rewrite Hexc, Himp. }
  unfold resolve; simpl. rewrite Hi. repeat split.
  apply (existsb_of_member _ _ a Hin). unfold is_block. now rewrite Hexc.
Qed.


End MatcherFacts.

(** C1. Importance precedence: whenever an important block rule [a] and
    an exception rule [b] of the engine's rule set both match a request,
    [matches] reports a block ([matchedBlock]) that is not suppressed
    ([matchedException] is false, so the request is blocked) and reports
    [matchedImportant]. *)
Theorem important_block_beats_exception `{Backend} (e : Engine) (a b : Rule)
    (url host tab_host : string) (third_party : bool) (resource_type : string) :
  let q := mkRequest url host tab_host third_party resource_type in
  let m := matches e url host tab_host third_party resource_type in
  In a (rules e) -> In b (rules e) ->
  rule_exception a = false -> rule_important a = true ->
  rule_exception b = true ->
  rule_matches (tags_enabled e) a q = true ->
  rule_matches (tags_enabled e) b q = true ->
  matchedBlock m = true /\ matchedException m = false
  /\ matchedImportant m = true /\ blocked m = true.
Proof.
  intros q m Ha _ Hexa Himp _ Hma _. subst m. rewrite matches_resolve. fold q.
  destruct (resolve_important (resources e) (matching_rules e q) a)
    as (Hb & He & Hi); trivial.
  - apply in_matching_rules. now split.
  - unfold blocked. rewrite Hb, He, Hi. now repeat split.
Qed.

Lemma important_block_beats_exception_witness :
  let e := mkEngine [ads_exception; ads_important_block] ∅ "" None in
  let m := @matches sample_backend e "https://ads.example.com/a.js"
             "ads.example.com" "news.example.com" false "script" in
  matchedBlock m = true /\ matchedException m = false
  /\ matchedImportant m = true /\ blocked m = true.
Proof.
  apply (@important_block_beats_exception sample_backend
           (mkEngine [ads_exception; ads_important_block] ∅ "" None)
           ads_important_block ads_exception);
    solve [ reflexivity | simpl; auto ].
Defined.

(** The same through the wrapper: [ShouldStartRequest] hands the result
    of [matches] to its caller. *)
Lemma ShouldStartRequest_important `{Backend} `{Chromium} (w : AdBlockEngine)
    (url : GURL) (resource_type : ResourceType) (tab_host : string)
    (aggressive_blocking : bool) (a : Rule) :
  let third_party :=
    negb (SameDomainOrHost url
            (CreateFromNormalizedTuple "https" (c_str tab_host) 80)
            INCLUDE_PRIVATE_REGISTRIES) in
  let q := mkRequest (GURL_spec url) (GURL_host url) tab_host third_party
             (ResourceTypeToString resource_type) in
  let m := ShouldStartRequest w url resource_type tab_host aggressive_blocking in
  In a (rules (ad_block_client_ w)) ->
  rule_exception a = false -> rule_important a = true ->
  rule_matches (tags_enabled (ad_block_client_ w)) a q = true ->
  matchedBlock m = true /\ matchedException m = false
  /\ matchedImportant m = true.
Proof.
  intros tp q m Ha Hexa Himp Hma. subst m. unfold ShouldStartRequest.
  rewrite matches_resolve. fold tp q.
  apply (resolve_important _ _ a); trivial.
  apply in_matching_rules. now split.
Qed.




(** C7. A request that satisfies the full predicate (tag requirement,
    pattern, resource type, party constraint, domains) of no rule of the
    rule set gets [matchedBlock = false] from [matches]; nothing else is
    reported either. *)
Theorem no_matching_rule_no_block `{Backend} (e : Engine)
    (url host tab_host : string) (third_party : bool) (resource_type : string) :
  let q := mkRequest url host tab_host third_party resource_type in
  let m := matches e url host tab_host third_party resource_type in
  (forall r, In r (rules e) -> rule_matches (tags_enabled e) r q = false) ->
  matchedBlock m = false /\ matchedException m = false
  /\ matchedImportant m = false /\ optionalRewriteURL m = None.
Proof.
  intros q m Hno. subst m. rewrite matches_resolve. fold q.
  rewrite (matching_rules_nil e q Hno). now repeat split.
Qed.

Lemma no_matching_rule_no_block_witness :
  let e := mkEngine [ads_script_block; ads_exception] ∅ "" None in
  let m := @matches sample_backend e "https://ads.example.com/a.css"
             "ads.example.com" "news.example.com" false "stylesheet" in
  matchedBlock m = false /\ matchedException m = false
  /\ matchedImportant m = false /\ optionalRewriteURL m = None.
Proof.
  apply (@no_matching_rule_no_block sample_backend
           (mkEngine [ads_script_block; ads_exception] ∅ "" None)).
  intros r [<- | [<- | []]]; reflexivity.
Defined.

(* ===================================================================== *)
(** ** Resource types and the third-party flag                            *)
(* ===================================================================== *)

Lemma type_bit_empty : type_bit "" = 0%N.
Proof. reflexivity. Qed.

(** A rule with a type option rejects every untyped request. *)
Lemma type_restricted_rejects_untyped `{Backend} (tags : gset string)
    (r : Rule) (url host tab_host : string) (third_party : bool) :
  type_restricted r = true ->
  rule_matches tags r (mkRequest url host tab_host third_party "") = false.
Proof.
  unfold type_restricted. intros Hr.
  assert (Ht : type_matches r (mkRequest url host tab_host third_party "")
               = false).
  { unfold type_matches. simpl. rewrite type_bit_empty, N.land_0_r.
    destruct (rule_types r =? 0)%N; [discriminate Hr | reflexivity]. }
  unfold rule_matches, untagged_predicate. rewrite Ht.
  now rewrite andb_false_r, !andb_false_l, andb_false_r.
Qed.

(** C6. [ResourceTypeToString] sends every resource type to one of the
    eleven filter-option names or to the empty string. Each type with a
    filter-list equivalent gets its own name (the favicon gets "image");
    workers, shared workers, prefetches, service workers, CSP reports
    and plugin resources get the empty string, and so do the types the
    switch does not list, and no other type does. A request whose type
    string is empty satisfies the predicate of no rule that restricts
    the resource type, whatever the rule's pattern and the other request
    fields. *)
Theorem resource_type_strings_closed `{Backend} :
  (forall rt : ResourceType,
     In (ResourceTypeToString rt) ("" :: resource_type_vocabulary))
  /\ map ResourceTypeToString
       [kMainFrame; kSubFrame; kStylesheet; kScript; kFavicon; kImage;
        kFontResource; kSubResource; kObject; kMedia; kXhr; kPing]
     = ["main_frame"; "sub_frame"; "stylesheet"; "script"; "image"; "image";
        "font"; "other"; "object"; "media"; "xhr"; "ping"]
  /\ (forall rt : ResourceType,
        In rt [kWorker; kSharedWorker; kPrefetch; kServiceWorker;
               kCspReport; kPluginResource] ->
        ResourceTypeToString rt = "")
  /\ (forall rt : ResourceType,
        ResourceTypeToString rt = "" ->
        In rt [kWorker; kSharedWorker; kPrefetch; kServiceWorker;
               kCspReport; kPluginResource]
        \/ exists raw : Z, rt = kUnlisted raw)
  /\ (forall (tags : gset string) (r : Rule) (rt : ResourceType)
             (url host tab_host : string) (third_party : bool),
        ResourceTypeToString rt = "" ->
        type_restricted r = true ->
        rule_matches tags r
          (mkRequest url host tab_host third_party (ResourceTypeToString rt))
        = false).
Proof.
  split; [|split; [|split; [|split]]].
  - intros rt. destruct rt; simpl; tauto.
  - reflexivity.
  - intros rt Hin. simpl in Hin.
    repeat (destruct Hin as [<- | Hin]; [reflexivity|]). destruct Hin.
  - intros rt Hempty.
    destruct rt; simpl in Hempty; try discriminate Hempty; simpl; eauto 10.
  - intros tags r rt url host tab_host third_party Hempty Hr.
    rewrite Hempty. now apply type_restricted_rejects_untyped.
Qed.

Lemma resource_type_strings_closed_witness :
  ResourceTypeToString kServiceWorker = ""
  /\ (In kServiceWorker [kWorker; kSharedWorker; kPrefetch; kServiceWorker;
                         kCspReport; kPluginResource]
      \/ exists raw : Z, kServiceWorker = kUnlisted raw)
  /\ @rule_matches sample_backend ∅ ads_script_block
       (mkRequest "https://ads.example.com/a.js" "ads.example.com"
          "news.example.com" false (ResourceTypeToString kServiceWorker))
     = false.
Proof.
  destruct (@resource_type_strings_closed sample_backend)
    as (_ & _ & Hw & Honly & Hu).
  split; [|split].
  - apply Hw. simpl. tauto.
  - apply Honly. reflexivity.
  - apply Hu; reflexivity.
Defined.

(** A string without NUL is its own C string. *)
Lemma c_str_without_NUL (s : string) :
  ~ In Ascii.zero (list_ascii_of_string s) -> c_str s = s.
Proof.
  induction s as [|c rest IH]; intros Hfree; simpl.
  - reflexivity.
  - destruct (Ascii.eqb_spec c Ascii.zero) as [-> | Hc].
    + destruct Hfree. now left.
    + rewrite IH; [reflexivity|]. intros Hin. apply Hfree. now right.
Qed.

(** The flag both request queries hand to the engine compares the
    registrable domain of the URL's host with that of the C string of the
    tab host, private registries included; the engine is given the tab
    host itself. *)
Lemma third_party_flag_of_queries `{Backend} `{Chromium}
    (w : AdBlockEngine) (url : GURL) (resource_type : ResourceType)
    (tab_host : string) (aggressive_blocking : bool) :
  let third_party :=
    negb (String.eqb
            (GetDomainAndRegistry (GURL_host url) INCLUDE_PRIVATE_REGISTRIES)
            (GetDomainAndRegistry (c_str tab_host)
               INCLUDE_PRIVATE_REGISTRIES)) in
  ShouldStartRequest w url resource_type tab_host aggressive_blocking
  = matches (ad_block_client_ w) (GURL_spec url) (GURL_host url) tab_host
      third_party (ResourceTypeToString resource_type)
  /\ GetCspDirectives w url resource_type tab_host
     = (let result :=
          getCspDirectives (ad_block_client_ w) (GURL_spec url)
            (GURL_host url) tab_host third_party
            (ResourceTypeToString resource_type) in
        if String.eqb result "" then None else Some result).
Proof. split; reflexivity. Qed.


(* ===================================================================== *)
(** ** Cosmetic queries                                                   *)
(* ===================================================================== *)

(** C10. Whenever the JSON text the engine answers to a cosmetic query
    does not parse, [UrlCosmeticResources] returns the empty dictionary
    and [HiddenClassIdSelectors] returns the empty list; neither stops
    at a check nor returns part of a value. *)
Theorem cosmetic_queries_on_unparsable_json `{Backend} `{Chromium}
    (w : AdBlockEngine) :
  (forall url : string,
     JSONReader_Read (urlCosmeticResources (ad_block_client_ w) url) = None ->
     UrlCosmeticResources w url = Returned [])
  /\ (forall classes ids exceptions : list string,
        JSONReader_Read
          (hiddenClassIdSelectors (ad_block_client_ w) classes ids exceptions)
        = None ->
        HiddenClassIdSelectors w classes ids exceptions = Returned []).
Proof.
  split.
  - intros url Hnone. unfold UrlCosmeticResources. now rewrite Hnone.
  - intros classes ids exceptions Hnone. unfold HiddenClassIdSelectors.
    now rewrite Hnone.
Qed.

Lemma cosmetic_queries_on_unparsable_json_witness :
  @UrlCosmeticResources sample_backend sample_chromium
    (@AdBlockEngine_new sample_backend) "https://example.com/page"
  = Returned []
  /\ @HiddenClassIdSelectors sample_backend sample_chromium
       (@AdBlockEngine_new sample_backend) ["banner-ad"] ["top"] []
     = Returned [].
Proof.
  destruct (@cosmetic_queries_on_unparsable_json sample_backend
              sample_chromium (@AdBlockEngine_new sample_backend))
    as (Hurl & Hsel).
  split; [apply Hurl | apply Hsel]; reflexivity.
Defined.

(* ===================================================================== *)
(** ** Engine replacement and the wrapper's own state                     *)
(* ===================================================================== *)

Section WrapperState.
Context `{Backend} `{Chromium}.

(** Replaying a set of tags onto an engine adds them to its active tags
    and changes nothing else. *)
Lemma replay_tags (c : Engine) (known : gset string) :
  set_fold (fun tag c' => addTag c' tag) c known
  = mkEngine (rules c) (known ∪ tags_enabled c) (resources c)
      (discard_policy c).
Proof.
  apply (set_fold_ind_L
           (fun (r : Engine) (X : gset string) =>
              r = mkEngine (rules c) (X ∪ tags_enabled c) (resources c)
                    (discard_policy c))).
  - destruct c as [rs ts res pol]; simpl. f_equal.
    now rewrite (left_id_L ∅ (∪)).
  - intros x X r _ ->. unfold addTag; simpl. f_equal.
    now rewrite (assoc_L (∪)).
Qed.

Lemma UpdateAdBlockClient_client (w : AdBlockEngine) (c : Engine)
    (resources_json : string) :
  ad_block_client_ (UpdateAdBlockClient w c resources_json)
  = mkEngine (rules c) (tags_ w ∪ tags_enabled c) resources_json
      (Some (regex_discard_policy_ w)).
Proof.
  unfold UpdateAdBlockClient, AddKnownTagsToAdBlockInstance, UseResources.
  destruct w as [c0 ts pol obs]; destruct obs; simpl; apply replay_tags.
Qed.

Lemma UpdateAdBlockClient_tags (w : AdBlockEngine) (c : Engine)
    (resources_json : string) :
  tags_ (UpdateAdBlockClient w c resources_json) = tags_ w.
Proof.
  unfold UpdateAdBlockClient. destruct w as [c0 ts pol obs]; now destruct obs.
Qed.

Lemma UpdateAdBlockClient_policy (w : AdBlockEngine) (c : Engine)
    (resources_json : string) :
  regex_discard_policy_ (UpdateAdBlockClient w c resources_json)
  = regex_discard_policy_ w.
Proof.
  unfold UpdateAdBlockClient. destruct w as [c0 ts pol obs]; now destruct obs.
Qed.

Lemma deserialize_keeps_settings (e : Engine) (data : list byte) :
  tags_enabled (snd (deserialize e data)) = tags_enabled e
  /\ resources (snd (deserialize e data)) = resources e
  /\ discard_policy (snd (deserialize e data)) = discard_policy e.
Proof. unfold deserialize. now destruct (deserialize_index data). Qed.

(** After a replacement the engine's tags are the recorded ones, provided
    the incoming engine has none of its own. *)
Lemma UpdateAdBlockClient_in_sync (w : AdBlockEngine) (c : Engine)
    (resources_json : string) :
  tags_enabled c = ∅ ->
  tags_in_sync (UpdateAdBlockClient w c resources_json).
Proof.
  intros Hc. unfold tags_in_sync.
  rewrite UpdateAdBlockClient_client, UpdateAdBlockClient_tags. simpl.
  rewrite Hc. apply (right_id_L ∅ (∪)).
Qed.

Lemma Load_in_sync (w : AdBlockEngine) (des : bool)
    (dat_buf : DATFileDataBuffer) (resources_json : string) :
  tags_in_sync w -> tags_in_sync (Load w des dat_buf resources_json).
Proof.
  intros Hw. unfold Load, OnDATLoaded, OnListSourceLoaded.
  destruct des.
  - destruct dat_buf as [|b rest]; [exact Hw|].
    apply UpdateAdBlockClient_in_sync.
    now destruct (deserialize_keeps_settings Engine_new (b :: rest)) as [-> _].
  - now apply UpdateAdBlockClient_in_sync.
Qed.

(** In every reachable state the engine's active tags are the tags the
    wrapper recorded. *)
Lemma reachable_in_sync (w : AdBlockEngine) : reachable w -> tags_in_sync w.
Proof.
  induction 1 as [ | w tag enabled _ IH | w res _ IH | w pol _ IH
                   | w des buf res _ IH | w obs _ IH | w _ IH ].
  - reflexivity.
  - unfold tags_in_sync in *. unfold EnableTag.
    destruct enabled; [case_bool_decide|]; simpl; [exact IH | | ];
      now rewrite IH.
  - exact IH.
  - exact IH.
  - now apply Load_in_sync.
  - exact IH.
  - exact IH.
Qed.

Lemma EnableTag_rules (w : AdBlockEngine) (tag : string) (enabled : bool) :
  rules (ad_block_client_ (EnableTag w tag enabled))
  = rules (ad_block_client_ w).
Proof.
  unfold EnableTag. destruct enabled; [case_bool_decide|]; reflexivity.
Qed.

Lemma EnableTag_enables (w : AdBlockEngine) (tag : string) :
  tags_in_sync w ->
  tag ∈ tags_enabled (ad_block_client_ (EnableTag w tag true)).
Proof.
  unfold tags_in_sync, EnableTag. intros Hw.
  case_bool_decide as Hin; simpl.
  - now rewrite Hw.
  - apply elem_of_union_l. now apply elem_of_singleton.
Qed.

(** A rule whose tag is not active is outside the matching rules. *)
Lemma inactive_tag_no_match (tags : gset string) (r : Rule) (t : string)
    (q : Request) :
  rule_tag r = Some t -> t ∉ tags -> rule_matches tags r q = false.
Proof.
  intros Ht Hnot. unfold rule_matches, tag_satisfied. rewrite Ht.
  now rewrite bool_decide_eq_false_2.
Qed.

Lemma matching_rules_without (rs_before rs_after : list Rule) (r : Rule)
    (tags : gset string) (res : string)
    (pol : option RegexManagerDiscardPolicy) (q : Request) :
  rule_matches tags r q = false ->
  matching_rules (mkEngine (rs_before ++ r :: rs_after) tags res pol) q
  = matching_rules (mkEngine (rs_before ++ rs_after) tags res pol) q.
Proof.
  intros Hr. unfold matching_rules; simpl.
  rewrite !List.filter_app. simpl. now rewrite Hr.
Qed.

End WrapperState.

(* ===================================================================== *)
(** ** Tags                                                               *)
(* ===================================================================== *)

(** C4. Tag gating. For a rule [r] that requires tag [t] and any
    request: while [t] is not among the engine's enabled tags, the results
    of [matches] and of [getCspDirectives] are those of the rule set
    without [r], whatever the pattern and the other predicates of [r]
    say; and after [EnableTag t true] the index is the one it was (no
    rule was parsed or moved) and on the next query the predicate of [r]
    is its pattern and other predicates alone, so that [r] is among the
    matching rules as soon as these hold. *)
Theorem tag_gates_rule `{Backend} `{Chromium} (w : AdBlockEngine) (r : Rule)
    (t : string) (url host tab_host : string) (third_party : bool)
    (resource_type : string) :
  let q := mkRequest url host tab_host third_party resource_type in
  let e := ad_block_client_ w in
  reachable w ->
  rule_tag r = Some t ->
  (t ∉ tags_enabled e ->
   forall rs_before rs_after : list Rule,
     rules e = rs_before ++ r :: rs_after ->
     let e' := mkEngine (rs_before ++ rs_after) (tags_enabled e)
                 (resources e) (discard_policy e) in
     matches e url host tab_host third_party resource_type
     = matches e' url host tab_host third_party resource_type
     /\ getCspDirectives e url host tab_host third_party resource_type
        = getCspDirectives e' url host tab_host third_party resource_type)
  /\ (let e1 := ad_block_client_ (EnableTag w t true) in
      rules e1 = rules e
      /\ t ∈ tags_enabled e1
      /\ rule_matches (tags_enabled e1) r q = untagged_predicate r q
      /\ (In r (rules e) -> untagged_predicate r q = true ->
          In r (matching_rules e1 q))).
Proof.
  intros q e Hreach Htag. split.
  - intros Hoff rs_before rs_after Hrules e'.
    assert (Hsame : matching_rules e q = matching_rules e' q).
    { subst e'. destruct e as [rs ts res pol]; simpl in *. subst rs.
      apply matching_rules_without.
      now apply (inactive_tag_no_match ts r t q). }
    unfold matches, getCspDirectives. fold q. now rewrite Hsame.
  - intros e1.
    assert (Hon : t ∈ tags_enabled e1).
    { apply EnableTag_enables. now apply reachable_in_sync. }
    assert (Hpred : rule_matches (tags_enabled e1) r q
                    = untagged_predicate r q).
    { unfold rule_matches, tag_satisfied. rewrite Htag.
      now rewrite bool_decide_eq_true_2. }
    repeat split; trivial.
    + apply EnableTag_rules.
    + intros Hin Hq. apply in_matching_rules. split.
      * subst e1. now rewrite EnableTag_rules.
      * now rewrite Hpred.
Qed.

Lemma tag_gates_rule_witness :
  let w := @Load sample_backend (@AdBlockEngine_new sample_backend) true
             (serialize_index [ads_exception; regional_block]) "" in
  let e := ad_block_client_ w in
  let q := mkRequest "https://ads.example.com/a.css" "ads.example.com"
             "news.example.com" false "stylesheet" in
  (@matches sample_backend e "https://ads.example.com/a.css"
     "ads.example.com" "news.example.com" false "stylesheet"
   = @matches sample_backend
       (mkEngine [ads_exception] (tags_enabled e) (resources e)
          (discard_policy e))
       "https://ads.example.com/a.css" "ads.example.com" "news.example.com"
       false "stylesheet")
  /\ In regional_block
       (@matching_rules sample_backend
          (ad_block_client_ (EnableTag w "regional" true)) q).
Proof.
  intros w e q.
  destruct (@tag_gates_rule sample_backend sample_chromium w regional_block
              "regional" "https://ads.example.com/a.css" "ads.example.com"
              "news.example.com" false "stylesheet")
    as (Hoff & _ & _ & _ & Hon).
  - apply reach_Load, reach_new.
  - reflexivity.
  - split.
    + apply (Hoff (not_elem_of_empty "regional") [ads_exception] []).
      reflexivity.
    + apply Hon; [vm_compute; right; left; reflexivity | reflexivity].
Defined.

(* ===================================================================== *)
(** ** Reloading                                                          *)
(* ===================================================================== *)

(** C9, as stated, fails for the resource catalog: the engine built by a
    reload uses the catalog passed to [Load], not the one in use
    before. *)
Lemma reload_keeps_configuration_counterexample :
  ~ (forall (B : Backend) (w : AdBlockEngine) (des : bool)
       (dat_buf : DATFileDataBuffer) (resources_json : string),
       reachable w ->
       let w' := Load w des dat_buf resources_json in
       tags_enabled (ad_block_client_ w') = tags_enabled (ad_block_client_ w)
       /\ resources (ad_block_client_ w') = resources (ad_block_client_ w)
       /\ discard_policy (ad_block_client_ w')
          = discard_policy (ad_block_client_ w)).
Proof.
  intros claim.
  destruct (claim sample_backend
              (UseResources
                 (SetupDiscardPolicy (@AdBlockEngine_new sample_backend)
                    (mkPolicy 60 100))
                 "[noop.js]")
              false [] "[]") as (_ & Hres & _).
  - apply reach_UseResources, reach_SetupDiscardPolicy, reach_new.
  - discriminate Hres.
Qed.

(** The policy the wrapper holds is the one its history says. *)
Lemma last_policy_stored `{Backend} (p : RegexManagerDiscardPolicy)
    (w : AdBlockEngine) :
  last_policy p w -> regex_discard_policy_ w = p.
Proof.
  induction 1 as [ | p0 p w _ _ | p w tag enabled _ IH | p w res _ IH
                   | p w des buf res _ IH | p w obs _ IH | p w _ IH ].
  - reflexivity.
  - reflexivity.
  - unfold EnableTag.
    destruct enabled; [destruct (bool_decide (tag ∈ tags_ w))|]; exact IH.
  - exact IH.
  - unfold Load, OnDATLoaded, OnListSourceLoaded.
    destruct des; [destruct buf as [|b rest]; [exact IH|]|];
      now rewrite UpdateAdBlockClient_policy.
  - exact IH.
  - exact IH.
Qed.

(** Every reachable state has such a policy. *)
Lemma reachable_last_policy `{Backend} (w : AdBlockEngine) :
  reachable w -> exists p, last_policy p w.
Proof.
  induction 1 as [ | w tag enabled _ [p IH] | w res _ [p IH] | w pol _ [p IH]
                   | w des buf res _ [p IH] | w obs _ [p IH] | w _ [p IH] ].
  - exists default_discard_policy. constructor.
  - exists p. now constructor.
  - exists p. now constructor.
  - exists pol. now apply (last_SetupDiscardPolicy p).
  - exists p. now constructor.
  - exists p. now constructor.
  - exists p. now constructor.
Qed.

(** C9, amended. A reload that replaces the engine (new list data, or a
    snapshot buffer that is not empty) leaves the wrapper's tags and
    policy as they were and gives the new engine exactly the tags enabled
    before the reload and the discard policy the wrapper holds, which is
    the one last passed to [SetupDiscardPolicy] (the default-constructed
    one if there was no such call), without any call by the caller; the
    catalog of the new engine is the one passed to [Load]. *)
Theorem reload_replays_tags_and_policy `{Backend} (w : AdBlockEngine)
    (des : bool) (dat_buf : DATFileDataBuffer) (resources_json : string) :
  let w' := Load w des dat_buf resources_json in
  reachable w ->
  (des = true -> dat_buf <> []) ->
  tags_enabled (ad_block_client_ w') = tags_enabled (ad_block_client_ w)
  /\ tags_ w' = tags_ w
  /\ discard_policy (ad_block_client_ w') = Some (regex_discard_policy_ w)
  /\ regex_discard_policy_ w' = regex_discard_policy_ w
  /\ resources (ad_block_client_ w') = resources_json
  /\ (exists p, last_policy p w)
  /\ (forall p, last_policy p w ->
        discard_policy (ad_block_client_ w') = Some p
        /\ regex_discard_policy_ w' = p
        /\ last_policy p w').
Proof.
  intros w' Hreach Hbuf.
  assert (Hsync : tags_in_sync w) by now apply reachable_in_sync.
  assert (Hrepl : exists c, tags_enabled c = ∅
                            /\ w' = UpdateAdBlockClient w c resources_json).
  { subst w'. unfold Load, OnDATLoaded, OnListSourceLoaded. destruct des.
    - destruct dat_buf as [|b rest]; [now destruct Hbuf|].
      exists (snd (deserialize Engine_new (b :: rest))). split; trivial.
      now destruct (deserialize_keeps_settings Engine_new (b :: rest))
        as [-> _].
    - now exists (Engine_from_list dat_buf). }
  assert (Hhist : forall p, last_policy p w -> last_policy p w')
    by (intros p Hp; subst w'; now constructor).
  destruct Hrepl as (c & Hc & Hw'). rewrite Hw' in *.
  rewrite UpdateAdBlockClient_client, UpdateAdBlockClient_tags,
    UpdateAdBlockClient_policy. simpl. rewrite Hc, Hsync.
  split; [apply (right_id_L ∅ (∪))|]. split; [reflexivity|].
  split; [reflexivity|]. split; [reflexivity|]. split; [reflexivity|].
  split; [now apply reachable_last_policy|].
  intros p Hp. rewrite (last_policy_stored p w Hp).
  split; [reflexivity|]. split; [reflexivity|]. now apply Hhist.
Qed.

Lemma reload_replays_tags_and_policy_witness :
  let w := EnableTag
             (SetupDiscardPolicy (@AdBlockEngine_new sample_backend)
                (mkPolicy 60 100))
             "regional" true in
  let w' := @Load sample_backend w true (serialize_index [regional_block])
              "[]" in
  tags_enabled (ad_block_client_ w') = tags_enabled (ad_block_client_ w)
  /\ tags_ w' = tags_ w
  /\ discard_policy (ad_block_client_ w') = Some (mkPolicy 60 100)
  /\ regex_discard_policy_ w' = mkPolicy 60 100
  /\ resources (ad_block_client_ w') = "[]".
Proof.
  intros w w'.
  destruct (@reload_replays_tags_and_policy sample_backend w true
              (serialize_index [regional_block]) "[]")
    as (Htags & Hknown & _ & _ & Hres & _ & Hlast).
  - apply reach_EnableTag, reach_SetupDiscardPolicy, reach_new.
  - intros _. discriminate.
  - destruct (Hlast (mkPolicy 60 100)) as (Hpol & Hstored & _).
    + apply (@last_EnableTag sample_backend).
      apply (@last_SetupDiscardPolicy sample_backend
               (@default_discard_policy sample_backend)).
      apply (@last_new sample_backend).
    + repeat split; assumption.
Defined.

(* ===================================================================== *)
(** ** The snapshot codec                                                 *)
(* ===================================================================== *)

Section CodecRoundTrip.

Lemma to_N_byte_of_N (n : N) : (n < 256)%N -> Byte.to_N (byte_of_N n) = n.
Proof.
  intros Hn. unfold byte_of_N. destruct (Byte.of_N n) as [b|] eqn:Hof.
  - now apply Byte.to_of_N.
  - apply Byte.of_N_None_iff in Hof. lia.
Qed.

Lemma decode_encode_N_groups (g : nat) :
  forall (n : N) (rest : list byte),
    (n < 2 ^ N.of_nat g)%N ->
    decode_N (encode_N_groups (S g) n ++ rest) = Some (n, rest).
Proof.
  induction g as [|g IH]; intros n rest Hn.
  - change (2 ^ N.of_nat 0)%N with 1%N in Hn.
    assert (n = 0%N) as -> by lia. reflexivity.
  - change (encode_N_groups (S (S g)) n)
      with (if (n <? 128)%N then [byte_of_N n]
            else byte_of_N (128 + n mod 128)
                 :: encode_N_groups (S g) (n / 128)).
    destruct (n <? 128)%N eqn:Hsmall.
    + apply N.ltb_lt in Hsmall. simpl.
      rewrite to_N_byte_of_N by lia.
      now apply N.ltb_lt in Hsmall as ->.
    + apply N.ltb_ge in Hsmall.
      assert (Hmod : (n mod 128 < 128)%N) by (apply N.mod_lt; lia).
      pose proof (N.div_mod n 128) as Hsum.
      remember (n mod 128)%N as low eqn:Hlow. clear Hlow.
      cbn [app decode_N]. rewrite to_N_byte_of_N by lia.
      replace (128 + low <? 128)%N with false
        by (symmetry; apply N.ltb_ge; lia).
      rewrite IH.
      * f_equal. f_equal. lia.
      * apply N.Div0.div_lt_upper_bound.
        rewrite Nat2N.inj_succ, N.pow_succ_r' in Hn. lia.
Qed.

Lemma decode_encode_N (n : N) (rest : list byte) :
  decode_N (encode_N n ++ rest) = Some (n, rest).
Proof.
  unfold encode_N. apply decode_encode_N_groups.
  rewrite N2Nat.id. apply N.size_gt.
Qed.

Lemma encode_N_length (n : N) : (1 <= List.length (encode_N n))%nat.
Proof.
  unfold encode_N. cbn [encode_N_groups].
  destruct (n <? 128)%N; simpl; lia.
Qed.

Lemma decode_encode_bool (b : bool) (rest : list byte) :
  decode_bool (encode_bool b ++ rest) = Some (b, rest).
Proof. now destruct b. Qed.

Lemma list_byte_of_string_length (s : string) :
  List.length (list_byte_of_string s) = String.length s.
Proof.
  unfold list_byte_of_string. rewrite List.length_map.
  induction s as [|c s IH]; simpl; [reflexivity | now rewrite IH].
Qed.

Lemma decode_encode_string (s : string) (rest : list byte) :
  decode_string (encode_string s ++ rest) = Some (s, rest).
Proof.
  unfold decode_string, encode_string, dbind.
  rewrite <- app_assoc, decode_encode_N.
  assert (Hlen : N.to_nat (N.of_nat (String.length s))
                 = List.length (list_byte_of_string s))
    by now rewrite Nat2N.id, list_byte_of_string_length.
  replace (N.of_nat (String.length s)
           <=? N.of_nat (List.length (list_byte_of_string s ++ rest)))%N
    with true.
  - rewrite Hlen, take_app_length, drop_app_length.
    now rewrite string_of_list_byte_of_string.
  - symmetry. apply N.leb_le. rewrite List.length_app.
    rewrite list_byte_of_string_length. lia.
Qed.

Lemma encode_string_length (s : string) :
  (1 <= List.length (encode_string s))%nat.
Proof.
  unfold encode_string. rewrite List.length_app.
  pose proof (encode_N_length (N.of_nat (String.length s))). lia.
Qed.

Section Combinators.
Context {A : Type} (enc : A -> list byte) (dec : Decoder A).
Hypothesis dec_enc :
  forall (a : A) (rest : list byte), dec (enc a ++ rest) = Some (a, rest).

Lemma decode_encode_option (o : option A) (rest : list byte) :
  decode_option dec (encode_option enc o ++ rest) = Some (o, rest).
Proof.
  destruct o as [a|]; simpl; [now rewrite dec_enc | reflexivity].
Qed.

Lemma decode_encode_items (l : list A) (rest : list byte) :
  decode_items dec (List.length l) (concat (map enc l) ++ rest)
  = Some (l, rest).
Proof.
  induction l as [|a l IH]; simpl.
  - reflexivity.
  - unfold dbind. rewrite <- app_assoc, dec_enc, IH. reflexivity.
Qed.

Hypothesis enc_length : forall a : A, (1 <= List.length (enc a))%nat.

Lemma encoded_items_length (l : list A) :
  (List.length l <= List.length (concat (map enc l)))%nat.
Proof.
  induction l as [|a l IH]; simpl.
  - lia.
  - rewrite List.length_app. pose proof (enc_length a). lia.
Qed.

Lemma decode_encode_list (l : list A) (rest : list byte) :
  decode_list dec (encode_list enc l ++ rest) = Some (l, rest).
Proof.
  unfold decode_list, encode_list, dbind.
  rewrite <- app_assoc, decode_encode_N.
  replace (N.of_nat (List.length l)
           <=? N.of_nat (List.length (concat (map enc l) ++ rest)))%N
    with true.
  - rewrite Nat2N.id. apply decode_encode_items.
  - symmetry. apply N.leb_le. rewrite List.length_app.
    pose proof (encoded_items_length l). lia.
Qed.

End Combinators.

Lemma decode_encode_pattern (p : Pattern) (rest : list byte) :
  decode_pattern (encode_pattern p ++ rest) = Some (p, rest).
Proof.
  destruct p; simpl; unfold dbind; now rewrite decode_encode_string.
Qed.

Lemma decode_encode_party (p : PartyConstraint) (rest : list byte) :
  decode_party (encode_party p ++ rest) = Some (p, rest).
Proof. now destruct p. Qed.

Lemma decode_encode_rule (r : Rule) (rest : list byte) :
  decode_rule (encode_rule r ++ rest) = Some (r, rest).
Proof.
  destruct r as [id pat types incl excl party tag imp exc rew csp].
  unfold encode_rule, decode_rule, dbind, dret.
  cbn [rule_id rule_pattern rule_types rule_domains_include
       rule_domains_exclude rule_party rule_tag rule_important
       rule_exception rule_rewrite rule_csp].
  rewrite <- !app_assoc.
  rewrite decode_encode_N; cbv beta iota.
  rewrite decode_encode_pattern; cbv beta iota.
  rewrite decode_encode_N; cbv beta iota.
  rewrite (decode_encode_list encode_string decode_string
             decode_encode_string encode_string_length); cbv beta iota.
  rewrite (decode_encode_list encode_string decode_string
             decode_encode_string encode_string_length); cbv beta iota.
  rewrite decode_encode_party; cbv beta iota.
  rewrite (decode_encode_option encode_string decode_string
             decode_encode_string); cbv beta iota.
  rewrite decode_encode_bool; cbv beta iota.
  rewrite decode_encode_bool; cbv beta iota.
  rewrite (decode_encode_option encode_string decode_string
             decode_encode_string); cbv beta iota.
  rewrite (decode_encode_option encode_string decode_string
             decode_encode_string); cbv beta iota.
  reflexivity.
Qed.

Lemma encode_rule_length (r : Rule) : (1 <= List.length (encode_rule r))%nat.
Proof.
  unfold encode_rule. rewrite List.length_app.
  pose proof (encode_N_length (rule_id r)). lia.
Qed.

(** What [serialize_index] writes, [deserialize_index] reads back. *)
Lemma deserialize_serialize_index (idx : list Rule) :
  deserialize_index (serialize_index idx) = Some idx.
Proof.
  unfold deserialize_index, serialize_index.
  change (Byte.eqb snapshot_version snapshot_version) with true.
  cbv beta iota.
  rewrite <- (app_nil_r (encode_list encode_rule idx)).
  now rewrite (decode_encode_list encode_rule decode_rule
                 decode_encode_rule encode_rule_length).
Qed.

Lemma serialize_index_not_empty (idx : list Rule) : serialize_index idx <> [].
Proof. discriminate. Qed.

End CodecRoundTrip.

(** C3. Round trip: for every index, [deserialize_index] succeeds on the
    bytes [serialize_index] wrote for it, and the index it yields gives,
    under the same tags and catalog, the same [matches] result and the
    same directives as the original index for every request. *)
Theorem snapshot_round_trip `{Backend} (idx : list Rule) :
  exists idx' : list Rule,
    deserialize_index (serialize_index idx) = Some idx'
    /\ (forall target : Engine,
          deserialize target (serialize_index idx)
          = (true, mkEngine idx' (tags_enabled target) (resources target)
                     (discard_policy target)))
    /\ forall (tags : gset string) (catalog : string)
              (policy : option RegexManagerDiscardPolicy)
              (url host tab_host : string) (third_party : bool)
              (resource_type : string),
         matches (mkEngine idx' tags catalog policy) url host tab_host
           third_party resource_type
         = matches (mkEngine idx tags catalog policy) url host tab_host
             third_party resource_type
         /\ getCspDirectives (mkEngine idx' tags catalog policy) url host
              tab_host third_party resource_type
            = getCspDirectives (mkEngine idx tags catalog policy) url host
                tab_host third_party resource_type.
Proof.
  exists idx. split; [|split].
  - apply deserialize_serialize_index.
  - intros target. unfold deserialize.
    now rewrite deserialize_serialize_index.
  - intros. split; reflexivity.
Qed.

(** Match results depend on the index, the enabled tags and the catalog
    of an engine only. *)
Lemma matches_ext `{Backend} (e1 e2 : Engine) (url host tab_host : string)
    (third_party : bool) (resource_type : string) :
  rules e1 = rules e2 -> tags_enabled e1 = tags_enabled e2 ->
  resources e1 = resources e2 ->
  matches e1 url host tab_host third_party resource_type
  = matches e2 url host tab_host third_party resource_type.
Proof.
  intros Hr Ht Hc. unfold matches, matching_rules. now rewrite Hr, Ht, Hc.
Qed.

(** Through the wrapper: loading the snapshot of the engine in use, with
    the catalog in use, changes no answer of [ShouldStartRequest]. *)
Lemma Load_own_snapshot `{Backend} `{Chromium} (w : AdBlockEngine)
    (url : GURL) (resource_type : ResourceType) (tab_host : string)
    (aggressive_blocking : bool) :
  reachable w ->
  ShouldStartRequest
    (Load w true (serialize (ad_block_client_ w))
       (resources (ad_block_client_ w)))
    url resource_type tab_host aggressive_blocking
  = ShouldStartRequest w url resource_type tab_host aggressive_blocking.
Proof.
  intros Hreach. apply reachable_in_sync in Hreach.
  unfold ShouldStartRequest. apply matches_ext.
  - unfold Load, OnDATLoaded, serialize, serialize_index.
    rewrite UpdateAdBlockClient_client. simpl.
    unfold deserialize.
    change (snapshot_version
            :: encode_list encode_rule (rules (ad_block_client_ w)))
      with (serialize_index (rules (ad_block_client_ w))).
    now rewrite deserialize_serialize_index.
  - unfold Load, OnDATLoaded, serialize, serialize_index.
    rewrite UpdateAdBlockClient_client. simpl.
    destruct (deserialize_keeps_settings Engine_new
                (serialize_index (rules (ad_block_client_ w)))) as [Ht _].
    unfold serialize_index in Ht. rewrite Ht. simpl.
    unfold tags_in_sync in Hreach. rewrite Hreach.
    apply (right_id_L ∅ (∪)).
  - unfold Load, OnDATLoaded, serialize, serialize_index.
    now rewrite UpdateAdBlockClient_client.
Qed.

(** C8, as stated, fails for a corrupt buffer that is not empty: the
    engine in use is replaced by an empty one, and a request the previous
    engine blocked is no longer blocked. *)
Lemma failed_load_changes_engine_counterexample :
  let w := @Load sample_backend (@AdBlockEngine_new sample_backend) true
             (serialize_index [ads_block]) "" in
  let w' := @Load sample_backend w true [x02] "" in
  @reachable sample_backend w
  /\ deserialize_index [x02] = None
  /\ ad_block_client_ w' <> ad_block_client_ w
  /\ blocked (@ShouldStartRequest sample_backend sample_chromium w ads_url
                kScript "news.example.com" false) = true
  /\ blocked (@ShouldStartRequest sample_backend sample_chromium w' ads_url
                kScript "news.example.com" false) = false.
Proof.
  intros w w'. split; [|split; [|split; [|split]]].
  - apply reach_Load, reach_new.
  - reflexivity.
  - intros Heq. apply (f_equal rules) in Heq. vm_compute in Heq.
    discriminate Heq.
  - reflexivity.
  - reflexivity.
Qed.

(** C8, amended. Loading a snapshot never stops at an error. With an
    empty buffer the wrapper is left exactly as it was. With a buffer
    that is not empty and does not deserialize, the engine in use is
    replaced by an empty engine, which matches nothing, while the
    wrapper's tags and policy stay and are applied to it. In every
    case the index in use afterwards is the previous one, the empty one
    or the one the buffer deserializes to, never a part of it. *)
Theorem failed_snapshot_load `{Backend} (w : AdBlockEngine)
    (dat_buf : DATFileDataBuffer) (resources_json : string) :
  let w' := Load w true dat_buf resources_json in
  (dat_buf = [] -> deserialize_index dat_buf = None /\ w' = w)
  /\ (dat_buf <> [] -> deserialize_index dat_buf = None ->
      deserialize Engine_new dat_buf = (false, Engine_new)
      /\ w' = UpdateAdBlockClient w Engine_new resources_json
      /\ rules (ad_block_client_ w') = []
      /\ tags_ w' = tags_ w
      /\ regex_discard_policy_ w' = regex_discard_policy_ w
      /\ forall (url host tab_host : string) (third_party : bool)
                (resource_type : string),
           matches (ad_block_client_ w') url host tab_host third_party
             resource_type
           = mkMatchResult false false false None)
  /\ (rules (ad_block_client_ w') = rules (ad_block_client_ w)
      \/ rules (ad_block_client_ w') = []
      \/ deserialize_index dat_buf = Some (rules (ad_block_client_ w'))).
Proof.
  intros w'. subst w'. unfold Load, OnDATLoaded.
  destruct dat_buf as [|b rest].
  - split; [now split|]. split; [intros Hne; now destruct Hne|].
    now left.
  - split; [discriminate|]. split.
    + intros _ Hfail. unfold deserialize. rewrite Hfail. simpl.
      rewrite UpdateAdBlockClient_tags, UpdateAdBlockClient_policy.
      repeat split; trivial.
      * now rewrite UpdateAdBlockClient_client.
      * intros. unfold matches, matching_rules.
        now rewrite UpdateAdBlockClient_client.
    + rewrite UpdateAdBlockClient_client. unfold deserialize.
      destruct (deserialize_index (b :: rest)) as [idx|];
        cbn [snd rules Engine_new]; [right; right | right; left]; reflexivity.
Qed.

Lemma failed_snapshot_load_witness :
  let w := @Load sample_backend (@AdBlockEngine_new sample_backend) true
             (serialize_index [ads_block]) "" in
  @Load sample_backend w true [] "" = w
  /\ rules (ad_block_client_ (@Load sample_backend w true [x02] "")) = []
  /\ @matches sample_backend
       (ad_block_client_ (@Load sample_backend w true [x02] ""))
       "https://ads.example.com/a.js" "ads.example.com" "news.example.com"
       false "script"
     = mkMatchResult false false false None.
Proof.
  intros w.
  destruct (@failed_snapshot_load sample_backend w [] "") as (Hempty & _).
  destruct (@failed_snapshot_load sample_backend w [x02] "")
    as (_ & Hcorrupt & _).
  destruct Hcorrupt as (_ & _ & Hrules & _ & _ & Hnone);
    [discriminate | reflexivity |].
  split; [now apply Hempty|]. split; [exact Hrules | apply Hnone].
Defined.

(* ===================================================================== *)
(** ** The examples of the design document                                *)
(* ===================================================================== *)

(** A list with the one rule [||ads.example.com^$script]: the script is
    blocked, the stylesheet of the same host is not. *)
Example script_rule_blocks_script :
  let w := @Load sample_backend (@AdBlockEngine_new sample_backend) true
             (serialize_index [ads_script_block]) "" in
  let m := @ShouldStartRequest sample_backend sample_chromium w ads_url
             kScript "news.example.com" false in
  matchedBlock m = true /\ matchedException m = false.
Proof. split; reflexivity. Qed.

Example script_rule_spares_stylesheet :
  let w := @Load sample_backend (@AdBlockEngine_new sample_backend) true
             (serialize_index [ads_script_block]) "" in
  let m := @ShouldStartRequest sample_backend sample_chromium w
             (mkGURL "https://ads.example.com/a.css" "ads.example.com")
             kStylesheet "news.example.com" false in
  matchedBlock m = false.
Proof. reflexivity. Qed.

(** A worker request is untyped and passes a rule with a type option, and
    is stopped by the same rule without the option. *)
Example worker_request_is_untyped :
  let typed := @Load sample_backend (@AdBlockEngine_new sample_backend) true
                 (serialize_index [ads_script_block]) "" in
  let untyped := @Load sample_backend (@AdBlockEngine_new sample_backend) true
                   (serialize_index [ads_block]) "" in
  matchedBlock (@ShouldStartRequest sample_backend sample_chromium typed
                  ads_url kWorker "news.example.com" false) = false
  /\ matchedBlock (@ShouldStartRequest sample_backend sample_chromium untyped
                     ads_url kWorker "news.example.com" false) = true.
Proof. split; reflexivity. Qed.

(** Disabling a tag again takes the rule out on the next query. *)
Example tag_switch :
  let w := @Load sample_backend (@AdBlockEngine_new sample_backend) true
             (serialize_index [regional_block]) "" in
  let ask := fun w' =>
    matchedBlock (@ShouldStartRequest sample_backend sample_chromium w'
                    ads_url kScript "news.example.com" false) in
  ask w = false
  /\ ask (EnableTag w "regional" true) = true
  /\ ask (EnableTag (EnableTag w "regional" true) "regional" false) = false.
Proof. repeat split; reflexivity. Qed.

(* ===================================================================== *)
(** ** Further properties of the wrapper                                  *)
(* ===================================================================== *)

(** *** The resource-type table *)

(** X1. Two resource types with the same non-empty filter option are the
    same type, but for the favicon, which shares "image" with images. *)
Theorem ResourceTypeToString_injective_up_to_favicon (a b : ResourceType) :
  ResourceTypeToString a = ResourceTypeToString b ->
  ResourceTypeToString a <> "" ->
  a = b \/ (a = kFavicon /\ b = kImage) \/ (a = kImage /\ b = kFavicon).
Proof.
  intros Hsame Hnonempty.
  destruct a; simpl in Hnonempty; try (now destruct Hnonempty);
    destruct b; simpl in Hsame; try discriminate Hsame; auto.
Qed.

Lemma ResourceTypeToString_injective_up_to_favicon_witness :
  kFavicon = kImage \/ (kFavicon = kFavicon /\ kImage = kImage)
  \/ (kFavicon = kImage /\ kImage = kFavicon).
Proof.
  apply (ResourceTypeToString_injective_up_to_favicon kFavicon kImage).
  - reflexivity.
  - discriminate.
Defined.

(** X2. The empty filter option comes from the six types the source lists
    before [default:] and from the types it does not list, and from no
    other; and each of the eleven filter options is the string of some
    resource type. *)
Theorem ResourceTypeToString_empty_and_onto :
  (forall rt : ResourceType,
     ResourceTypeToString rt = "" <->
     In rt [kWorker; kSharedWorker; kPrefetch; kServiceWorker; kCspReport;
            kPluginResource]
     \/ exists raw : Z, rt = kUnlisted raw)
  /\ (forall option : string,
        In option resource_type_vocabulary ->
        exists rt : ResourceType, ResourceTypeToString rt = option).
Proof.
  split.
  - intros rt. split.
    + intros Hempty. destruct rt; simpl in Hempty; try discriminate Hempty;
        simpl; eauto 10.
    + intros [Hin | [raw ->]]; [|reflexivity]. simpl in Hin.
      repeat (destruct Hin as [<- | Hin]; [reflexivity|]). destruct Hin.
  - intros option Hin. simpl in Hin.
    destruct Hin as [<- | Hin]; [now exists kMainFrame|].
    destruct Hin as [<- | Hin]; [now exists kSubFrame|].
    destruct Hin as [<- | Hin]; [now exists kStylesheet|].
    destruct Hin as [<- | Hin]; [now exists kScript|].
    destruct Hin as [<- | Hin]; [now exists kImage|].
    destruct Hin as [<- | Hin]; [now exists kFontResource|].
    destruct Hin as [<- | Hin]; [now exists kSubResource|].
    destruct Hin as [<- | Hin]; [now exists kObject|].
    destruct Hin as [<- | Hin]; [now exists kMedia|].
    destruct Hin as [<- | Hin]; [now exists kXhr|].
    destruct Hin as [<- | Hin]; [now exists kPing|].
    destruct Hin.
Qed.

Lemma ResourceTypeToString_empty_and_onto_witness :
  (In (kUnlisted 19) [kWorker; kSharedWorker; kPrefetch; kServiceWorker;
                      kCspReport; kPluginResource]
   \/ exists raw : Z, kUnlisted 19 = kUnlisted raw)
  /\ exists rt : ResourceType, ResourceTypeToString rt = "xhr".
Proof.
  destruct ResourceTypeToString_empty_and_onto as (Hempty & Honto).
  split.
  - apply (Hempty (kUnlisted 19)). reflexivity.
  - apply Honto. simpl. tauto.
Defined.

(** *** Tags *)

(** X3. [TagExists] after [EnableTag]: the tag just switched answers the
    switch, every other tag answers as before. *)
Theorem TagExists_after_EnableTag (w : AdBlockEngine) (tag t : string)
    (enabled : bool) :
  TagExists (EnableTag w tag enabled) t
  = if String.eqb t tag then enabled else TagExists w t.
Proof.
  unfold TagExists, EnableTag. destruct enabled.
  - destruct (decide (tag ∈ tags_ w)) as [Hin | Hnot].
    + rewrite (bool_decide_eq_true_2 (tag ∈ tags_ w) Hin).
      destruct (String.eqb_spec t tag) as [-> | Hne]; [|reflexivity].
      now apply bool_decide_eq_true_2.
    + rewrite (bool_decide_eq_false_2 (tag ∈ tags_ w) Hnot). simpl.
      destruct (String.eqb_spec t tag) as [-> | Hne].
      * apply bool_decide_eq_true_2, elem_of_union_l.
        now apply elem_of_singleton.
      * apply bool_decide_ext. rewrite elem_of_union, elem_of_singleton.
        tauto.
  - simpl. destruct (String.eqb_spec t tag) as [-> | Hne].
    + apply bool_decide_eq_false_2.
      rewrite elem_of_difference, elem_of_singleton. tauto.
    + apply bool_decide_ext.
      rewrite elem_of_difference, elem_of_singleton. tauto.
Qed.

(** X4. Enabling a tag twice is enabling it once: the second call finds
    the tag in [tags_] and touches neither the set nor the engine. *)
Theorem EnableTag_twice (w : AdBlockEngine) (tag : string) :
  EnableTag (EnableTag w tag true) tag true = EnableTag w tag true.
Proof.
  assert (Hin : tag ∈ tags_ (EnableTag w tag true)).
  { unfold EnableTag. case_bool_decide as Hw; simpl; [exact Hw|].
    apply elem_of_union_l. now apply elem_of_singleton. }
  generalize dependent (EnableTag w tag true). intros w1 Hin.
  unfold EnableTag. now rewrite bool_decide_eq_true_2.
Qed.

Lemma union_singleton_difference (t : string) (X : gset string) :
  t ∉ X -> ({[t]} ∪ X) ∖ {[t]} = X.
Proof.
  intros Hnot. apply set_eq. intros x.
  rewrite elem_of_difference, elem_of_union, elem_of_singleton.
  split; [tauto|]. intros Hx. split; [now right|]. now intros ->.
Qed.

(** X5. In a reachable state, enabling a tag that was not enabled and
    disabling it again gives back the very state one started from,
    engine included. *)
Theorem EnableTag_then_disable `{Backend} (w : AdBlockEngine) (tag : string) :
  reachable w ->
  TagExists w tag = false ->
  EnableTag (EnableTag w tag true) tag false = w.
Proof.
  intros Hreach Hoff. apply reachable_in_sync in Hreach.
  unfold TagExists in Hoff. apply bool_decide_eq_false_1 in Hoff.
  unfold EnableTag. rewrite bool_decide_eq_false_2 by exact Hoff.
  unfold tags_in_sync in Hreach.
  destruct w as [[rs ts res pol] known policy obs]; simpl in *. subst ts.
  unfold removeTag, addTag, with_tags, with_client; simpl.
  now rewrite union_singleton_difference.
Qed.

Lemma EnableTag_then_disable_witness :
  EnableTag (EnableTag (@AdBlockEngine_new sample_backend) "regional" true)
    "regional" false
  = @AdBlockEngine_new sample_backend.
Proof.
  apply (@EnableTag_then_disable sample_backend).
  - apply reach_new.
  - reflexivity.
Defined.

(** X6. In every reachable state [TagExists] tells exactly whether the
    engine in use has the tag enabled: the wrapper's record and the
    engine never part, whatever was enabled, disabled or loaded. *)
Theorem TagExists_is_engine_tag `{Backend} (w : AdBlockEngine) (tag : string) :
  reachable w ->
  TagExists w tag = bool_decide (tag ∈ tags_enabled (ad_block_client_ w)).
Proof.
  intros Hreach. apply reachable_in_sync in Hreach.
  unfold TagExists. unfold tags_in_sync in Hreach. now rewrite Hreach.
Qed.

Lemma TagExists_is_engine_tag_witness :
  let w := @Load sample_backend
             (EnableTag (@AdBlockEngine_new sample_backend) "regional" true)
             true (serialize_index [regional_block]) "" in
  TagExists w "regional"
  = bool_decide ("regional" ∈ tags_enabled (ad_block_client_ w)).
Proof.
  intros w. apply (@TagExists_is_engine_tag sample_backend).
  apply reach_Load, reach_EnableTag, reach_new.
Defined.

(** X7. Replaying the known tags on a reachable state changes nothing:
    the engine already has them all. *)
Theorem AddKnownTags_on_reachable `{Backend} (w : AdBlockEngine) :
  reachable w -> AddKnownTagsToAdBlockInstance w = w.
Proof.
  intros Hreach. apply reachable_in_sync in Hreach.
  unfold AddKnownTagsToAdBlockInstance. rewrite replay_tags.
  unfold tags_in_sync in Hreach.
  destruct w as [[rs ts res pol] known policy obs]; simpl in *. subst ts.
  unfold with_client; simpl. now rewrite (idemp_L (∪)).
Qed.

Lemma AddKnownTags_on_reachable_witness :
  let w := EnableTag (@AdBlockEngine_new sample_backend) "regional" true in
  AddKnownTagsToAdBlockInstance w = w.
Proof.
  intros w. apply (@AddKnownTags_on_reachable sample_backend).
  apply reach_EnableTag, reach_new.
Defined.

(** *** Loading *)

Lemma UpdateAdBlockClient_observer (w : AdBlockEngine) (c : Engine)
    (resources_json : string) :
  test_observer_ (UpdateAdBlockClient w c resources_json)
  = OnEngineUpdated <$> test_observer_ w.
Proof.
  unfold UpdateAdBlockClient. destruct w as [c0 ts pol obs]; now destruct obs.
Qed.

(** X8. [Load] never touches [tags_] nor the stored discard policy. It
    tells the test observer, if there is one, exactly once, except for an
    empty snapshot buffer, which is dropped without a word; an empty
    filter list is loaded like any other. *)
Theorem Load_frame_and_notification `{Backend} (w : AdBlockEngine)
    (des : bool) (dat_buf : DATFileDataBuffer) (resources_json : string) :
  let w' := Load w des dat_buf resources_json in
  tags_ w' = tags_ w
  /\ regex_discard_policy_ w' = regex_discard_policy_ w
  /\ test_observer_ w'
     = match des, dat_buf with
       | true, [] => test_observer_ w
       | _, _ => OnEngineUpdated <$> test_observer_ w
       end.
Proof.
  unfold Load, OnDATLoaded, OnListSourceLoaded.
  destruct des; [destruct dat_buf as [|b rest]|]; simpl;
    rewrite ?UpdateAdBlockClient_tags, ?UpdateAdBlockClient_policy,
      ?UpdateAdBlockClient_observer; auto.
Qed.

(** X9. A load that replaces the engine takes nothing from the engine it
    replaces: two wrappers that differ in their engine only are the same
    wrapper after the same load. *)
Theorem Load_forgets_previous_engine `{Backend} (w : AdBlockEngine)
    (other : Engine) (des : bool) (dat_buf : DATFileDataBuffer)
    (resources_json : string) :
  (des = true -> dat_buf <> []) ->
  Load (with_client w other) des dat_buf resources_json
  = Load w des dat_buf resources_json.
Proof.
  intros Hbuf. unfold Load, OnDATLoaded, OnListSourceLoaded.
  destruct des; [destruct dat_buf as [|b rest]|].
  - now destruct Hbuf.
  - reflexivity.
  - reflexivity.
Qed.

Lemma Load_forgets_previous_engine_witness :
  let w := @AdBlockEngine_new sample_backend in
  @Load sample_backend
    (with_client w (mkEngine [ads_block] ∅ "[noop.js]" None))
    true (serialize_index [ads_exception]) "[]"
  = @Load sample_backend w true (serialize_index [ads_exception]) "[]".
Proof.
  intros w.
  apply (@Load_forgets_previous_engine sample_backend w
           (mkEngine [ads_block] ∅ "[noop.js]" None) true
           (serialize_index [ads_exception]) "[]").
  intros _. discriminate.
Defined.

(** X10. In every reachable state the engine in use either was never
    given a discard policy (no [SetupDiscardPolicy], no replacement yet)
    or runs under the policy the wrapper holds. *)
Theorem engine_policy_is_stored_policy `{Backend} (w : AdBlockEngine) :
  reachable w ->
  discard_policy (ad_block_client_ w) = None
  \/ discard_policy (ad_block_client_ w) = Some (regex_discard_policy_ w).
Proof.
  induction 1 as [ | w tag enabled _ IH | w res _ IH | w pol _ IH
                   | w des buf res _ IH | w obs _ IH | w _ IH ].
  - now left.
  - unfold EnableTag. destruct enabled; [case_bool_decide|]; exact IH.
  - exact IH.
  - now right.
  - unfold Load, OnDATLoaded, OnListSourceLoaded.
    destruct des; [destruct buf as [|b rest]; [exact IH|]|];
      right; now rewrite UpdateAdBlockClient_client,
                   UpdateAdBlockClient_policy.
  - exact IH.
  - exact IH.
Qed.

Lemma engine_policy_is_stored_policy_witness :
  let w := @Load sample_backend
             (SetupDiscardPolicy (@AdBlockEngine_new sample_backend)
                (mkPolicy 60 100))
             false [] "[]" in
  discard_policy (ad_block_client_ w) = None
  \/ discard_policy (ad_block_client_ w) = Some (regex_discard_policy_ w).
Proof.
  intros w. apply (@engine_policy_is_stored_policy sample_backend).
  apply reach_Load, reach_SetupDiscardPolicy, reach_new.
Defined.

(** X11. The three settings are independent: switching a tag, installing
    a catalog and setting the discard policy give the same state in
    either order. *)
Theorem settings_commute (w : AdBlockEngine) (tag : string) (enabled : bool)
    (catalog : string) (policy : RegexManagerDiscardPolicy) :
  UseResources (EnableTag w tag enabled) catalog
  = EnableTag (UseResources w catalog) tag enabled
  /\ SetupDiscardPolicy (EnableTag w tag enabled) policy
     = EnableTag (SetupDiscardPolicy w policy) tag enabled
  /\ SetupDiscardPolicy (UseResources w catalog) policy
     = UseResources (SetupDiscardPolicy w policy) catalog.
Proof.
  unfold UseResources, SetupDiscardPolicy, EnableTag.
  repeat split; destruct enabled; simpl; try reflexivity;
    destruct (bool_decide (tag ∈ tags_ w)); reflexivity.
Qed.

(** *** Queries *)

Lemma omap_nothing {A B : Type} (f : A -> option B) (l : list A) :
  (forall a, In a l -> f a = None) -> omap f l = [].
Proof.
  induction l as [|a l IH]; intros Hnone; simpl.
  - reflexivity.
  - rewrite (Hnone a (or_introl eq_refl)). apply IH.
    intros b Hb. apply Hnone. now right.
Qed.

(** X12. [GetCspDirectives] never answers an empty string: it answers
    [nullopt] instead, and it answers [nullopt] for every request when no
    block rule of the engine carries a directive. *)
Theorem GetCspDirectives_never_empty `{Backend} `{Chromium}
    (w : AdBlockEngine) (url : GURL) (resource_type : ResourceType)
    (tab_host : string) :
  GetCspDirectives w url resource_type tab_host <> Some ""
  /\ ((forall r, In r (rules (ad_block_client_ w)) ->
                 rule_exception r = false -> rule_csp r = None) ->
      GetCspDirectives w url resource_type tab_host = None).
Proof.
  split.
  - unfold GetCspDirectives. cbv zeta.
    match goal with
    | |- context [String.eqb ?r ""] =>
        destruct (String.eqb_spec r "") as [Heq | Hne]
    end.
    + discriminate.
    + intros [= Hempty]. now apply Hne.
  - intros Hnone. unfold GetCspDirectives, getCspDirectives. cbv zeta.
    rewrite (omap_nothing rule_csp (List.filter is_block _)).
    + reflexivity.
    + intros r Hr. apply List.filter_In in Hr as [Hr Hblock].
      apply in_matching_rules in Hr as [Hr _]. apply Hnone; trivial.
      unfold is_block in Hblock. now destruct (rule_exception r).
Qed.

Lemma GetCspDirectives_never_empty_witness :
  @GetCspDirectives sample_backend sample_chromium
    (@Load sample_backend (@AdBlockEngine_new sample_backend) true
       (serialize_index [ads_block; ads_exception]) "")
    ads_url kMainFrame "ads.example.com"
  = None.
Proof.
  apply (@GetCspDirectives_never_empty sample_backend sample_chromium).
  intros r Hr _. vm_compute in Hr.
  destruct Hr as [<- | [<- | []]]; reflexivity.
Defined.

(** X13. A cosmetic query stops at a failed check exactly when the
    engine's text is JSON of the wrong type (not an object for
    [UrlCosmeticResources], not an array for [HiddenClassIdSelectors]);
    when the text is of the right type, the value read is returned as it
    is. *)
Theorem cosmetic_queries_check_the_type `{Backend} `{Chromium}
    (w : AdBlockEngine) :
  (forall url : string,
     let text := urlCosmeticResources (ad_block_client_ w) url in
     (UrlCosmeticResources w url = CheckFailed <->
      exists v, JSONReader_Read text = Some v /\ is_dict v = false)
     /\ (forall d, JSONReader_Read text = Some (VDict d) ->
                   UrlCosmeticResources w url = Returned d))
  /\ (forall classes ids exceptions : list string,
        let text :=
          hiddenClassIdSelectors (ad_block_client_ w) classes ids
            exceptions in
        (HiddenClassIdSelectors w classes ids exceptions = CheckFailed <->
         exists v, JSONReader_Read text = Some v /\ is_list v = false)
        /\ (forall l, JSONReader_Read text = Some (VList l) ->
                      HiddenClassIdSelectors w classes ids exceptions
                      = Returned l)).
Proof.
  split.
  - intros url text. unfold UrlCosmeticResources. fold text. split.
    + destruct (JSONReader_Read text) as [v|]; split.
      * intros Hfail. exists v. split; [reflexivity|].
        destruct v; simpl in *; try reflexivity; discriminate Hfail.
      * intros (v' & [= <-] & Hv). rewrite Hv. reflexivity.
      * discriminate.
      * intros (v' & Hv & _). discriminate Hv.
    + intros d ->. reflexivity.
  - intros classes ids exceptions text. unfold HiddenClassIdSelectors.
    fold text. split.
    + destruct (JSONReader_Read text) as [v|]; split.
      * intros Hfail. exists v. split; [reflexivity|].
        destruct v; simpl in *; try reflexivity; discriminate Hfail.
      * intros (v' & [= <-] & Hv). rewrite Hv. reflexivity.
      * discriminate.
      * intros (v' & Hv & _). discriminate Hv.
    + intros l ->. reflexivity.
Qed.

Lemma cosmetic_queries_check_the_type_witness :
  @UrlCosmeticResources swapped_backend sample_chromium
    (@AdBlockEngine_new swapped_backend) "https://example.com/page"
  = CheckFailed
  /\ @HiddenClassIdSelectors sample_backend sample_chromium
       (@Load sample_backend (@AdBlockEngine_new sample_backend) true
          (serialize_index [ads_block]) "")
       ["banner-ad"] [] []
     = Returned [].
Proof.
  split.
  - destruct (@cosmetic_queries_check_the_type swapped_backend
                sample_chromium (@AdBlockEngine_new swapped_backend))
      as (Hurl & _).
    apply (Hurl "https://example.com/page"). exists (VList []). now split.
  - destruct (@cosmetic_queries_check_the_type sample_backend sample_chromium
                (@Load sample_backend (@AdBlockEngine_new sample_backend) true
                   (serialize_index [ads_block]) ""))
      as (_ & Hsel).
    apply (Hsel ["banner-ad"] [] []). reflexivity.
Defined.

(** X14. What a request query depends on: the engine in use, the URL,
    the tab host and the filter option of the resource type. Wrappers
    with the same engine answer alike whatever their other fields, a
    favicon is answered like an image, and [aggressive_blocking] makes
    no difference. *)
Theorem request_queries_depend_on `{Backend} `{Chromium}
    (w1 w2 : AdBlockEngine) (url : GURL) (rt1 rt2 : ResourceType)
    (tab_host : string) (aggressive1 aggressive2 : bool) :
  ad_block_client_ w1 = ad_block_client_ w2 ->
  ResourceTypeToString rt1 = ResourceTypeToString rt2 ->
  ShouldStartRequest w1 url rt1 tab_host aggressive1
  = ShouldStartRequest w2 url rt2 tab_host aggressive2
  /\ GetCspDirectives w1 url rt1 tab_host
     = GetCspDirectives w2 url rt2 tab_host.
Proof.
  intros Hclient Htype. unfold ShouldStartRequest, GetCspDirectives.
  now rewrite Hclient, Htype.
Qed.

Lemma request_queries_depend_on_witness :
  let w := @Load sample_backend (@AdBlockEngine_new sample_backend) true
             (serialize_index [ads_block]) "" in
  @ShouldStartRequest sample_backend sample_chromium w ads_url kFavicon
    "news.example.com" true
  = @ShouldStartRequest sample_backend sample_chromium
      (AddObserverForTest w (mkTestObserver 0)) ads_url kImage
      "news.example.com" false
  /\ @GetCspDirectives sample_backend sample_chromium w ads_url kFavicon
       "news.example.com"
     = @GetCspDirectives sample_backend sample_chromium
         (AddObserverForTest w (mkTestObserver 0)) ads_url kImage
         "news.example.com".
Proof.
  intros w.
  apply (@request_queries_depend_on sample_backend sample_chromium w
           (AddObserverForTest w (mkTestObserver 0)) ads_url kFavicon kImage
           "news.example.com" true false); reflexivity.
Defined.

(** *** Debug information *)

Lemma static_cast_int_range (n : N) :
  (- 2 ^ 31 <= static_cast_int n < 2 ^ 31)%Z.
Proof.
  unfold static_cast_int. cbv zeta.
  pose proof (Z.mod_pos_bound (Z.of_N n) (2 ^ 32) eq_refl) as Hlow.
  destruct (Z.ltb_spec (Z.of_N n mod 2 ^ 32) (2 ^ 31)); lia.
Qed.

Lemma static_cast_int_small (n : N) :
  (n < 2 ^ 31)%N -> static_cast_int n = Z.of_N n.
Proof.
  intros Hn. unfold static_cast_int. cbv zeta.
  rewrite Z.mod_small by lia.
  destruct (Z.ltb_spec (Z.of_N n) (2 ^ 31)); lia.
Qed.

Lemma fold_left_Append {A : Type} (f : A -> Value) (l : list A)
    (acc : ValueList) :
  fold_left (fun regex_list a => List_Append regex_list (f a)) l acc
  = acc ++ map f l.
Proof.
  revert acc. induction l as [|a l IH]; intros acc; simpl.
  - now rewrite app_nil_r.
  - rewrite IH. unfold List_Append. now rewrite <- app_assoc.
Qed.

(** The value [GetDebugInfo] builds, key by key. *)
Lemma GetDebugInfo_value (getAdblockDebugInfo : Engine -> AdblockDebugInfo)
    (NumberToString : N -> string) (w : AdBlockEngine) :
  let info := getAdblockDebugInfo (ad_block_client_ w) in
  GetDebugInfo getAdblockDebugInfo NumberToString w
  = [("compiled_regex_count",
      VInt (static_cast_int (compiled_regex_count info)));
     ("regex_data",
      VList
        (map (fun e =>
                VDict
                  [("id", VString (NumberToString (entry_id e)));
                   ("regex", VString (regex e));
                   ("unused_sec", VInt (static_cast_int (unused_sec e)));
                   ("usage_count", VInt (static_cast_int (usage_count e)))])
             (regex_data info)))].
Proof.
  intros info. unfold GetDebugInfo. fold info. cbv zeta.
  rewrite fold_left_Append. reflexivity.
Qed.

(** X15. The dictionary [GetDebugInfo] returns has the two keys
    "compiled_regex_count" and "regex_data" and no other. Under
    "regex_data" is a list with one dictionary per regex the engine
    reported, in the engine's order; the dictionary of a regex gives its
    identifier written out as a string under "id" and its pattern under
    "regex", and has "unused_sec" and "usage_count" as well. *)
Theorem GetDebugInfo_shape (getAdblockDebugInfo : Engine -> AdblockDebugInfo)
    (NumberToString : N -> string) (w : AdBlockEngine) :
  let info := getAdblockDebugInfo (ad_block_client_ w) in
  let result := GetDebugInfo getAdblockDebugInfo NumberToString w in
  map fst result = ["compiled_regex_count"; "regex_data"]
  /\ exists regex_list : ValueList,
       Dict_Find result "regex_data" = Some (VList regex_list)
       /\ List.length regex_list = List.length (regex_data info)
       /\ forall (i : nat) (e : RegexDebugEntry),
            nth_error (regex_data info) i = Some e ->
            exists regex_info : Dict,
              nth_error regex_list i = Some (VDict regex_info)
              /\ map fst regex_info
                 = ["id"; "regex"; "unused_sec"; "usage_count"]
              /\ Dict_Find regex_info "id"
                 = Some (VString (NumberToString (entry_id e)))
              /\ Dict_Find regex_info "regex" = Some (VString (regex e)).
Proof.
  intros info result. subst result. rewrite GetDebugInfo_value. fold info.
  split; [reflexivity|].
  eexists. split; [reflexivity|]. split.
  - apply List.length_map.
  - intros i e Hi.
    exists [("id", VString (NumberToString (entry_id e)));
            ("regex", VString (regex e));
            ("unused_sec", VInt (static_cast_int (unused_sec e)));
            ("usage_count", VInt (static_cast_int (usage_count e)))].
    split.
    + now rewrite (List.map_nth_error _ _ _ Hi).
    + now repeat split.
Qed.

Lemma GetDebugInfo_shape_witness :
  exists regex_info : Dict,
    Dict_Find regex_info "id" = Some (VString "7")
    /\ Dict_Find regex_info "regex" = Some (VString "ad[0-9]+").
Proof.
  destruct (GetDebugInfo_shape sample_debug_info decimal_string
              (@AdBlockEngine_new sample_backend))
    as (_ & regex_list & _ & _ & Hentry).
  destruct (Hentry 0%nat (mkRegexDebugEntry 7 "ad[0-9]+" 12 3) eq_refl)
    as (regex_info & _ & _ & Hid & Hregex).
  exists regex_info. split; [exact Hid | exact Hregex].
Defined.

(** X16. The counters [GetDebugInfo] reports go through a cast to [int]:
    the number under "compiled_regex_count" is always a 32-bit integer
    and is the engine's count exactly when that is below 2^31; and the
    "unused_sec" and "usage_count" of a regex are the engine's whenever
    these are below 2^31. *)
Theorem GetDebugInfo_counters
    (getAdblockDebugInfo : Engine -> AdblockDebugInfo)
    (NumberToString : N -> string) (w : AdBlockEngine) :
  let info := getAdblockDebugInfo (ad_block_client_ w) in
  let result := GetDebugInfo getAdblockDebugInfo NumberToString w in
  (exists reported : Z,
     Dict_Find result "compiled_regex_count" = Some (VInt reported)
     /\ (- 2 ^ 31 <= reported < 2 ^ 31)%Z
     /\ (reported = Z.of_N (compiled_regex_count info)
         <-> (compiled_regex_count info < 2 ^ 31)%N))
  /\ forall (i : nat) (e : RegexDebugEntry),
       nth_error (regex_data info) i = Some e ->
       (unused_sec e < 2 ^ 31)%N -> (usage_count e < 2 ^ 31)%N ->
       exists (regex_list : ValueList) (regex_info : Dict),
         Dict_Find result "regex_data" = Some (VList regex_list)
         /\ nth_error regex_list i = Some (VDict regex_info)
         /\ Dict_Find regex_info "unused_sec"
            = Some (VInt (Z.of_N (unused_sec e)))
         /\ Dict_Find regex_info "usage_count"
            = Some (VInt (Z.of_N (usage_count e))).
Proof.
  intros info result. subst result. rewrite GetDebugInfo_value. fold info.
  split.
  - exists (static_cast_int (compiled_regex_count info)).
    split; [reflexivity|].
    pose proof (static_cast_int_range (compiled_regex_count info)) as Hrange.
    split; [exact Hrange|]. split.
    + intros Heq. rewrite Heq in Hrange. lia.
    + apply static_cast_int_small.
  - intros i e Hi Hunused Husage. eexists.
    exists [("id", VString (NumberToString (entry_id e)));
            ("regex", VString (regex e));
            ("unused_sec", VInt (static_cast_int (unused_sec e)));
            ("usage_count", VInt (static_cast_int (usage_count e)))].
    split; [reflexivity|]. split.
    + now rewrite (List.map_nth_error _ _ _ Hi).
    + simpl. now rewrite !static_cast_int_small.
Qed.

Lemma GetDebugInfo_counters_witness :
  exists (regex_list : ValueList) (regex_info : Dict),
    Dict_Find
      (GetDebugInfo sample_debug_info decimal_string
         (@AdBlockEngine_new sample_backend))
      "regex_data" = Some (VList regex_list)
    /\ nth_error regex_list 0 = Some (VDict regex_info)
    /\ Dict_Find regex_info "unused_sec" = Some (VInt 12)
    /\ Dict_Find regex_info "usage_count" = Some (VInt 3).
Proof.
  destruct (GetDebugInfo_counters sample_debug_info decimal_string
              (@AdBlockEngine_new sample_backend)) as (_ & Hentry).
  apply (Hentry 0%nat (mkRegexDebugEntry 7 "ad[0-9]+" 12 3) eq_refl);
    reflexivity.
Defined.

(** *** Settings and answers *)

Lemma difference_absent (t : string) (X : gset string) :
  t ∉ X -> X ∖ {[t]} = X.
Proof.
  intros Hnot. apply set_eq. intros x.
  rewrite elem_of_difference, elem_of_singleton.
  split; [tauto|]. intros Hx. split; [exact Hx|]. now intros ->.
Qed.

(** X17. In a reachable state, switching a tag to the value it has is no
    change at all: enabling an enabled tag stops at the guard, disabling
    a tag that is not enabled removes nothing from the set or from the
    engine. *)
Theorem EnableTag_to_current_value `{Backend} (w : AdBlockEngine)
    (tag : string) (enabled : bool) :
  reachable w ->
  TagExists w tag = enabled ->
  EnableTag w tag enabled = w.
Proof.
  intros Hreach Hcur. apply reachable_in_sync in Hreach.
  unfold TagExists in Hcur. unfold EnableTag. destruct enabled.
  - now rewrite Hcur.
  - apply bool_decide_eq_false_1 in Hcur. unfold tags_in_sync in Hreach.
    destruct w as [[rs ts res pol] known policy obs]; simpl in *. subst ts.
    unfold removeTag, with_tags, with_client; simpl.
    now rewrite difference_absent.
Qed.

Lemma EnableTag_to_current_value_witness :
  EnableTag (@AdBlockEngine_new sample_backend) "regional" false
  = @AdBlockEngine_new sample_backend.
Proof.
  apply (@EnableTag_to_current_value sample_backend).
  - apply reach_new.
  - reflexivity.
Defined.

Lemma filter_agree {A : Type} (f g : A -> bool) (l : list A) :
  (forall a, In a l -> f a = g a) -> List.filter f l = List.filter g l.
Proof.
  induction l as [|a l IH]; intros Hfg; simpl.
  - reflexivity.
  - rewrite (Hfg a (or_introl eq_refl)), IH; [reflexivity|].
    intros b Hb. apply Hfg. now right.
Qed.

(** X18. Switching a tag that no rule of the engine requires changes no
    answer: [ShouldStartRequest] and [GetCspDirectives] answer every
    request as before. *)
Theorem EnableTag_of_unused_tag `{Backend} `{Chromium} (w : AdBlockEngine)
    (tag : string) (enabled : bool) (url : GURL)
    (resource_type : ResourceType) (tab_host : string)
    (aggressive_blocking : bool) :
  (forall r, In r (rules (ad_block_client_ w)) -> rule_tag r <> Some tag) ->
  ShouldStartRequest (EnableTag w tag enabled) url resource_type tab_host
    aggressive_blocking
  = ShouldStartRequest w url resource_type tab_host aggressive_blocking
  /\ GetCspDirectives (EnableTag w tag enabled) url resource_type tab_host
     = GetCspDirectives w url resource_type tab_host.
Proof.
  intros Hunused.
  assert (Hsame : forall q,
            matching_rules (ad_block_client_ (EnableTag w tag enabled)) q
            = matching_rules (ad_block_client_ w) q).
  { intros q. unfold matching_rules. rewrite EnableTag_rules.
    apply filter_agree. intros r Hr. unfold rule_matches. f_equal.
    unfold tag_satisfied. specialize (Hunused r Hr).
    destruct (rule_tag r) as [t|]; [|reflexivity].
    assert (Hne : t <> tag) by congruence.
    unfold EnableTag.
    destruct enabled; [destruct (bool_decide (tag ∈ tags_ w))|]; simpl;
      try reflexivity; apply bool_decide_ext.
    - rewrite elem_of_union, elem_of_singleton. tauto.
    - rewrite elem_of_difference, elem_of_singleton. tauto. }
  assert (Hres : resources (ad_block_client_ (EnableTag w tag enabled))
                 = resources (ad_block_client_ w)).
  { unfold EnableTag.
    destruct enabled; [destruct (bool_decide (tag ∈ tags_ w))|];
      reflexivity. }
  unfold ShouldStartRequest, GetCspDirectives, matches, getCspDirectives.
  cbv zeta. now rewrite !Hsame, Hres.
Qed.

Lemma EnableTag_of_unused_tag_witness :
  let w := @Load sample_backend (@AdBlockEngine_new sample_backend) true
             (serialize_index [ads_block; regional_block]) "" in
  @ShouldStartRequest sample_backend sample_chromium
    (EnableTag w "social" true) ads_url kScript "news.example.com" false
  = @ShouldStartRequest sample_backend sample_chromium w ads_url kScript
      "news.example.com" false
  /\ @GetCspDirectives sample_backend sample_chromium
       (EnableTag w "social" true) ads_url kScript "news.example.com"
     = @GetCspDirectives sample_backend sample_chromium w ads_url kScript
         "news.example.com".
Proof.
  intros w.
  apply (@EnableTag_of_unused_tag sample_backend sample_chromium w "social"
           true ads_url kScript "news.example.com" false).
  intros r Hr. vm_compute in Hr.
  destruct Hr as [<- | [<- | []]]; discriminate.
Defined.
